(** * StepCode dashboard: the in-memory query engine of [app/routes/_index.tsx]

    A shallow embedding of the filtering, sorting, pagination and
    filter-editing logic of the [Index] route, together with the JavaScript
    built-ins it calls, followed by the properties of that logic.

    Conventions of the embedding.
    - A JavaScript string is a [string]; each [ascii] stands for one UTF-16
      code unit below 256 (the Latin-1 range).
    - A [Set<string>] is the list of its members in insertion order.
    - The dataset comes from a JSON file, so every [Rating] is a finite
      number: a [Q].  Numbers that can be [NaN] (the results of [parseInt])
      have type [Js.number].
    - An array that the code updates in place is threaded through the
      functions that touch it. *)

From Stdlib Require Import List String Ascii Bool.
From Stdlib Require Import NArith ZArith QArith Qround.
From Stdlib Require Import Lia Lqa.
From Stdlib Require Import Permutation Sorted.
From Stdlib Require Import DecimalString.
From Stdlib Require DecimalZ.
Import ListNotations.

Local Open Scope string_scope.
Local Open Scope Z_scope.

(* ================================================================== *)
(** * JavaScript built-ins used by the route *)
(* ================================================================== *)

Module Js.

(** ** Strings *)

(** A string is truthy when it is not empty. *)
Definition truthy (s : string) : bool :=
  match s with
  | EmptyString => false
  | String _ _ => true
  end.

Definition is_upper (c : ascii) : bool :=
  let n := N_of_ascii c in
  (((65 <=? n) && (n <=? 90)) ||
   ((192 <=? n) && (n <=? 222) && negb (n =? 215)))%N.

(** [String.prototype.toLowerCase] on one code unit of the Latin-1 range:
    A-Z and the accented capitals (all of U+00C0..U+00DE but the
    multiplication sign) move up by 32, everything else stays. *)
Definition lower_unit (c : ascii) : ascii :=
  if is_upper c then ascii_of_N (N_of_ascii c + 32) else c.

Fixpoint toLowerCase (s : string) : string :=
  match s with
  | EmptyString => EmptyString
  | String c s' => String (lower_unit c) (toLowerCase s')
  end.

(** [s.startsWith(t)] *)
Fixpoint startsWith (s t : string) : bool :=
  match t, s with
  | EmptyString, _ => true
  | String _ _, EmptyString => false
  | String b t', String a s' => Ascii.eqb a b && startsWith s' t'
  end.

(** [s.includes(t)]: [t] occurs in [s] as a contiguous substring. *)
Fixpoint includes (s t : string) : bool :=
  startsWith s t ||
  match s with
  | EmptyString => false
  | String _ s' => includes s' t
  end.

(** [Number.prototype.toString] on an integer: decimal digits, with a
    leading minus sign for a negative one. *)
Definition toString (z : Z) : string :=
  NilZero.string_of_int (Z.to_int z).

(** The order of code units, and the order of strings that the default
    [Array.prototype.sort] uses: lexicographic on code units. *)
Fixpoint string_ltb (s t : string) : bool :=
  match s, t with
  | _, EmptyString => false
  | EmptyString, String _ _ => true
  | String a s', String b t' =>
      if (N_of_ascii a <? N_of_ascii b)%N then true
      else if (N_of_ascii b <? N_of_ascii a)%N then false
      else string_ltb s' t'
  end.

(** ** Numbers *)

Inductive number : Type :=
  | NaN
  | Num (q : Q).

(** [a > b], [a < b], [a >= b], [a <= b]: false as soon as one side is
    [NaN]. *)
Definition gt (a b : number) : bool :=
  match a, b with
  | Num x, Num y => negb (Qle_bool x y)
  | _, _ => false
  end.

Definition lt (a b : number) : bool := gt b a.

Definition ge (a b : number) : bool :=
  match a, b with
  | Num x, Num y => Qle_bool y x
  | _, _ => false
  end.

Definition le (a b : number) : bool := ge b a.

(** [Math.ceil] of a finite number. *)
Definition ceil (q : Q) : Z := Qceiling q.

(** ** [parseInt(string)] with no radix argument *)

Definition is_white (c : ascii) : bool :=
  let n := N_of_ascii c in
  (((9 <=? n) && (n <=? 13)) || (n =? 32) || (n =? 160))%N.

Fixpoint trimStart (s : string) : string :=
  match s with
  | EmptyString => EmptyString
  | String c s' => if is_white c then trimStart s' else s
  end.

Definition digit_value (c : ascii) : option Z :=
  let n := Z.of_N (N_of_ascii c) in
  if (48 <=? n) && (n <=? 57) then Some (n - 48)
  else if (97 <=? n) && (n <=? 122) then Some (n - 87)
  else if (65 <=? n) && (n <=? 90) then Some (n - 55)
  else None.

(** The value of the longest prefix of [s] made of digits of the radix;
    [acc] is [None] until a first digit has been read. *)
Fixpoint parse_digits (radix : Z) (s : string) (acc : option Z) : option Z :=
  match s with
  | EmptyString => acc
  | String c s' =>
      match digit_value c with
      | Some d =>
          if d <? radix
          then parse_digits radix s'
                 (Some (radix * match acc with Some a => a | None => 0 end + d))
          else acc
      | None => acc
      end
  end.

Definition strip_sign (s : string) : Z * string :=
  match s with
  | String "-" r => (-1, r)
  | String "+" r => (1, r)
  | _ => (1, s)
  end.

Definition strip_radix (s : string) : Z * string :=
  match s with
  | String "0" (String "x" r) => (16, r)
  | String "0" (String "X" r) => (16, r)
  | _ => (10, s)
  end.

Definition parseInt (s : string) : number :=
  let (sign, s1) := strip_sign (trimStart s) in
  let (radix, s2) := strip_radix s1 in
  match parse_digits radix s2 None with
  | None => NaN
  | Some n => Num (inject_Z (sign * n))
  end.

(** ** [Set<string>] *)

Definition StringSet : Type := list string.

Definition has (s : StringSet) (x : string) : bool :=
  existsb (String.eqb x) s.

Definition add (s : StringSet) (x : string) : StringSet :=
  if has s x then s else (s ++ [x])%list.

Definition delete (s : StringSet) (x : string) : StringSet :=
  filter (fun y => negb (String.eqb x y)) s.

Definition size (s : StringSet) : Z := Z.of_nat (List.length s).

(** [new Set(iterable)] *)
Definition newSet (l : list string) : StringSet :=
  fold_left add l [].

(** [Array.from(set)] *)
Definition arrayFrom (s : StringSet) : list string := s.

(** ** Arrays *)

(** [array.includes(x)] on an array of strings *)
Definition arrayIncludes (l : list string) (x : string) : bool :=
  existsb (String.eqb x) l.

Section Sort.
Context {A : Type}.

(** One step of a stable insertion: [x] goes in front of the first
    element that the comparator does not put before it. *)
Fixpoint insert (cmp : A -> A -> Q) (x : A) (l : list A) : list A :=
  match l with
  | [] => [x]
  | y :: l' =>
      if Qle_bool (cmp x y) 0 then x :: y :: l'
      else y :: insert cmp x l'
  end.

(** [Array.prototype.sort(compareFn)]: a stable sort. *)
Definition sort (cmp : A -> A -> Q) (l : list A) : list A :=
  fold_right (insert cmp) [] l.

(** [Array.prototype.slice(start, end)] *)
Definition slice (l : list A) (start stop : Z) : list A :=
  let len := Z.of_nat (List.length l) in
  let k := if start <? 0 then Z.max (len + start) 0 else Z.min start len in
  let final := if stop <? 0 then Z.max (len + stop) 0 else Z.min stop len in
  firstn (Z.to_nat (final - k)) (skipn (Z.to_nat k) l).
End Sort.

(** The default comparator of [sort()] on strings. *)
Definition defaultCompare (s t : string) : Q :=
  if string_ltb s t then (-1 # 1)%Q
  else if string_ltb t s then (1 # 1)%Q
  else 0%Q.

End Js.

(* ================================================================== *)
(** * Data model: [app/lib/types.ts] *)
(* ================================================================== *)

Module Types.

Record TopicTag : Type := {
  name : string;
  slug : option string;
  subtags : option (list string)
}.

Inductive Difficulty : Type := Easy | Medium | Hard.

Definition difficultyName (d : Difficulty) : string :=
  match d with
  | Easy => "Easy"
  | Medium => "Medium"
  | Hard => "Hard"
  end.

Record ProblemDetails : Type := {
  title : string;
  difficulty : Difficulty;
  questionId : string
}.

Record LeetCodeProblem : Type := {
  Rating : Q;
  ID : Z;
  Title : string;
  TitleSlug : string;
  topicTags : option (list TopicTag);
  problemDetails : option ProblemDetails
}.

End Types.

(** The two filter records of the route.  They share field names, so each
    lives in a module of its own. *)

Module Applied.
Record AppliedFilters : Type := {
  searchTerm : string;
  difficulty : string;
  tags : Js.StringSet;
  subtags : Js.StringSet;
  ratingMin : Js.number;
  ratingMax : Js.number;
  sortBy : string
}.

(** [{ ...f, searchTerm: v }] and the like *)
Definition withSearchTerm (v : string) (f : AppliedFilters) : AppliedFilters :=
  {| searchTerm := v; difficulty := difficulty f; tags := tags f;
     subtags := subtags f; ratingMin := ratingMin f; ratingMax := ratingMax f;
     sortBy := sortBy f |}.

Definition withDifficulty (v : string) (f : AppliedFilters) : AppliedFilters :=
  {| searchTerm := searchTerm f; difficulty := v; tags := tags f;
     subtags := subtags f; ratingMin := ratingMin f; ratingMax := ratingMax f;
     sortBy := sortBy f |}.

Definition withTags (v : Js.StringSet) (f : AppliedFilters) : AppliedFilters :=
  {| searchTerm := searchTerm f; difficulty := difficulty f; tags := v;
     subtags := subtags f; ratingMin := ratingMin f; ratingMax := ratingMax f;
     sortBy := sortBy f |}.

Definition withSubtags (v : Js.StringSet) (f : AppliedFilters) : AppliedFilters :=
  {| searchTerm := searchTerm f; difficulty := difficulty f; tags := tags f;
     subtags := v; ratingMin := ratingMin f; ratingMax := ratingMax f;
     sortBy := sortBy f |}.

Definition withRating (lo hi : Js.number) (f : AppliedFilters) : AppliedFilters :=
  {| searchTerm := searchTerm f; difficulty := difficulty f; tags := tags f;
     subtags := subtags f; ratingMin := lo; ratingMax := hi;
     sortBy := sortBy f |}.
End Applied.

Module Pending.
Record PendingFilters : Type := {
  searchTerm : string;
  difficulty : string;
  selectedTags : Js.StringSet;
  selectedSubtags : Js.StringSet;
  ratingMin : string;
  ratingMax : string;
  sortBy : string
}.

(** [{ ...prev, searchTerm: v }] and the like *)
Definition withSearchTerm (v : string) (f : PendingFilters) : PendingFilters :=
  {| searchTerm := v; difficulty := difficulty f;
     selectedTags := selectedTags f; selectedSubtags := selectedSubtags f;
     ratingMin := ratingMin f; ratingMax := ratingMax f; sortBy := sortBy f |}.

Definition withDifficulty (v : string) (f : PendingFilters) : PendingFilters :=
  {| searchTerm := searchTerm f; difficulty := v;
     selectedTags := selectedTags f; selectedSubtags := selectedSubtags f;
     ratingMin := ratingMin f; ratingMax := ratingMax f; sortBy := sortBy f |}.

Definition withSelectedTags (v : Js.StringSet) (f : PendingFilters)
    : PendingFilters :=
  {| searchTerm := searchTerm f; difficulty := difficulty f;
     selectedTags := v; selectedSubtags := selectedSubtags f;
     ratingMin := ratingMin f; ratingMax := ratingMax f; sortBy := sortBy f |}.

Definition withSelectedSubtags (v : Js.StringSet) (f : PendingFilters)
    : PendingFilters :=
  {| searchTerm := searchTerm f; difficulty := difficulty f;
     selectedTags := selectedTags f; selectedSubtags := v;
     ratingMin := ratingMin f; ratingMax := ratingMax f; sortBy := sortBy f |}.

Definition withRatingMin (v : string) (f : PendingFilters) : PendingFilters :=
  {| searchTerm := searchTerm f; difficulty := difficulty f;
     selectedTags := selectedTags f; selectedSubtags := selectedSubtags f;
     ratingMin := v; ratingMax := ratingMax f; sortBy := sortBy f |}.

Definition withRatingMax (v : string) (f : PendingFilters) : PendingFilters :=
  {| searchTerm := searchTerm f; difficulty := difficulty f;
     selectedTags := selectedTags f; selectedSubtags := selectedSubtags f;
     ratingMin := ratingMin f; ratingMax := v; sortBy := sortBy f |}.

Definition withSortBy (v : string) (f : PendingFilters) : PendingFilters :=
  {| searchTerm := searchTerm f; difficulty := difficulty f;
     selectedTags := selectedTags f; selectedSubtags := selectedSubtags f;
     ratingMin := ratingMin f; ratingMax := ratingMax f; sortBy := v |}.
End Pending.

(* ================================================================== *)
(** * The route component: [app/routes/_index.tsx] *)
(* ================================================================== *)

Module Index.

Import Types.
Definition AppliedFilters : Type := Applied.AppliedFilters.
Definition PendingFilters : Type := Pending.PendingFilters.

(** [array.forEach(body)] where the body updates a local accumulator. *)
Definition forEach {A S : Type} (l : list A) (body : A -> S -> S) (s : S) : S :=
  fold_left (fun acc a => body a acc) l s.

(** [array.some(pred)] *)
Definition some {A : Type} (l : list A) (pred : A -> bool) : bool :=
  existsb pred l.

(** [optional?.some(pred)] used as a filter condition: [undefined] drops
    the element. *)
Definition optSome {A : Type} (l : option (list A)) (pred : A -> bool) : bool :=
  match l with
  | Some l' => some l' pred
  | None => false
  end.

Definition num (z : Z) : Js.number := Js.Num (inject_Z z).

Definition defaultApplied : AppliedFilters :=
  {| Applied.searchTerm := "";
     Applied.difficulty := "all";
     Applied.tags := [];
     Applied.subtags := [];
     Applied.ratingMin := num 0;
     Applied.ratingMax := num 4000;
     Applied.sortBy := "rating-asc" |}.

Definition defaultPending : PendingFilters :=
  {| Pending.searchTerm := "";
     Pending.difficulty := "all";
     Pending.selectedTags := [];
     Pending.selectedSubtags := [];
     Pending.ratingMin := "";
     Pending.ratingMax := "";
     Pending.sortBy := "rating-asc" |}.

Definition pageSize : Z := 50.

(** ** Facets *)

(** [computedData.allTags] *)
Definition allTags (problems : list LeetCodeProblem) : list string :=
  let allTagsSet :=
    forEach problems (fun problem set =>
      match topicTags problem with
      | Some tags => forEach tags (fun tag set => Js.add set (name tag)) set
      | None => set
      end) [] in
  Js.sort Js.defaultCompare (Js.arrayFrom allTagsSet).

(** [availableSubtags], as a function of the dataset and of
    [pendingFilters.selectedTags] *)
Definition availableSubtags (problems : list LeetCodeProblem)
    (selectedTags : Js.StringSet) : list string :=
  if Js.size selectedTags =? 0 then []
  else
    let selectedTagsArray := Js.arrayFrom selectedTags in
    let subtagsSet :=
      forEach problems (fun problem set =>
        match topicTags problem with
        | Some tags =>
            forEach tags (fun tag set =>
              if Js.arrayIncludes selectedTagsArray (name tag) then
                match subtags tag with
                | Some sts =>
                    forEach sts (fun subtag set => Js.add set subtag) set
                | None => set
                end
              else set) set
        | None => set
        end) [] in
    Js.sort Js.defaultCompare (Js.arrayFrom subtagsSet).

(** ** Filtering and sorting *)

(** The local variable [filtered] holds a reference: to the dataset array
    itself until a first filter stage has run, to a fresh array after. *)
Inductive arrayRef : Type :=
  | Dataset
  | Fresh (l : list LeetCodeProblem).

Definition deref (problems : list LeetCodeProblem) (r : arrayRef)
    : list LeetCodeProblem :=
  match r with
  | Dataset => problems
  | Fresh l => l
  end.

(** [if (cond) filtered = filtered.filter(pred)] *)
Definition filterIf (cond : bool) (pred : LeetCodeProblem -> bool)
    (problems : list LeetCodeProblem) (filtered : arrayRef) : arrayRef :=
  if cond then Fresh (filter pred (deref problems filtered)) else filtered.

Definition searchPred (f : AppliedFilters) (problem : LeetCodeProblem) : bool :=
  let searchLower := Js.toLowerCase (Applied.searchTerm f) in
  Js.includes (Js.toLowerCase (Title problem)) searchLower ||
  Js.includes (Js.toString (ID problem)) searchLower.

Definition difficultyPred (f : AppliedFilters) (problem : LeetCodeProblem) : bool :=
  String.eqb
    match problemDetails problem with
    | Some d => difficultyName (difficulty d)
    | None => "Hard"
    end
    (Applied.difficulty f).

Definition tagPred (f : AppliedFilters) (problem : LeetCodeProblem) : bool :=
  let tagsArray := Js.arrayFrom (Applied.tags f) in
  optSome (topicTags problem) (fun tag => Js.arrayIncludes tagsArray (name tag)).

Definition subtagPred (f : AppliedFilters) (problem : LeetCodeProblem) : bool :=
  let subtagsArray := Js.arrayFrom (Applied.subtags f) in
  optSome (topicTags problem) (fun tag =>
    optSome (subtags tag) (fun subtag => Js.arrayIncludes subtagsArray subtag)).

Definition ratingPred (f : AppliedFilters) (problem : LeetCodeProblem) : bool :=
  Js.ge (Js.Num (Rating problem)) (Applied.ratingMin f) &&
  Js.le (Js.Num (Rating problem)) (Applied.ratingMax f).

Definition searchStage (f : AppliedFilters) :=
  filterIf (Js.truthy (Applied.searchTerm f)) (searchPred f).

Definition difficultyStage (f : AppliedFilters) :=
  filterIf (negb (String.eqb (Applied.difficulty f) "all")) (difficultyPred f).

Definition tagStage (f : AppliedFilters) :=
  filterIf (Js.size (Applied.tags f) >? 0) (tagPred f).

Definition subtagStage (f : AppliedFilters) :=
  filterIf (Js.size (Applied.subtags f) >? 0) (subtagPred f).

Definition ratingStage (f : AppliedFilters) :=
  filterIf (Js.gt (Applied.ratingMin f) (num 0) ||
            Js.lt (Applied.ratingMax f) (num 4000)) (ratingPred f).

(** [filtered.sort(compareFn)] sorts in place the array that [filtered]
    refers to: the dataset itself when no filter stage has run. *)
Definition sortInPlace (cmp : LeetCodeProblem -> LeetCodeProblem -> Q)
    (problems : list LeetCodeProblem) (filtered : arrayRef)
    : list LeetCodeProblem * arrayRef :=
  match filtered with
  | Dataset => (Js.sort cmp problems, Dataset)
  | Fresh l => (problems, Fresh (Js.sort cmp l))
  end.

Section Route.

(** [String.prototype.localeCompare] depends on the collation of the host;
    it is a parameter of the route. *)
Variable localeCompare : string -> string -> Q.

Definition compareFn (f : AppliedFilters) (a b : LeetCodeProblem) : Q :=
  let key := Applied.sortBy f in
  if String.eqb key "rating-desc" then (Rating b - Rating a)%Q
  else if String.eqb key "rating-asc" then (Rating a - Rating b)%Q
  else if String.eqb key "id-asc" then inject_Z (ID a - ID b)
  else if String.eqb key "id-desc" then inject_Z (ID b - ID a)
  else if String.eqb key "title-asc" then localeCompare (Title a) (Title b)
  else if String.eqb key "title-desc" then localeCompare (Title b) (Title a)
  else (Rating a - Rating b)%Q.

(** [filteredAndSortedProblems]: the array it returns, and the dataset
    array as the call leaves it. *)
Definition filteredAndSortedProblems (problems : list LeetCodeProblem)
    (appliedFilters : AppliedFilters)
    : list LeetCodeProblem * list LeetCodeProblem :=
  let filtered := Dataset in
  let filtered := searchStage appliedFilters problems filtered in
  let filtered := difficultyStage appliedFilters problems filtered in
  let filtered := tagStage appliedFilters problems filtered in
  let filtered := subtagStage appliedFilters problems filtered in
  let filtered := ratingStage appliedFilters problems filtered in
  let (problems', filtered) :=
    sortInPlace (compareFn appliedFilters) problems filtered in
  (deref problems' filtered, problems').

(** ** Pagination *)

Definition paginatedProblems (filteredAndSorted : list LeetCodeProblem)
    (currentPage : Z) : list LeetCodeProblem :=
  let startIndex := (currentPage - 1) * pageSize in
  Js.slice filteredAndSorted startIndex (startIndex + pageSize).

Definition totalPages (filteredAndSorted : list LeetCodeProblem) : Z :=
  Js.ceil (inject_Z (Z.of_nat (List.length filteredAndSorted))
           / inject_Z pageSize)%Q.

(** ** Handlers *)

(** [pendingFilters.ratingMin ? parseInt(pendingFilters.ratingMin) : 0] *)
Definition parseBound (text : string) (fallback : Z) : Js.number :=
  if Js.truthy text then Js.parseInt text else num fallback.

(** The value [applyFilters] hands to [setAppliedFilters]. *)
Definition applyFilters (pendingFilters : PendingFilters) : AppliedFilters :=
  {| Applied.searchTerm := Pending.searchTerm pendingFilters;
     Applied.difficulty := Pending.difficulty pendingFilters;
     Applied.tags := Js.newSet (Pending.selectedTags pendingFilters);
     Applied.subtags := Js.newSet (Pending.selectedSubtags pendingFilters);
     Applied.ratingMin := parseBound (Pending.ratingMin pendingFilters) 0;
     Applied.ratingMax := parseBound (Pending.ratingMax pendingFilters) 4000;
     Applied.sortBy := Pending.sortBy pendingFilters |}.

(** [array.find(pred)] *)
Definition arrayFind {A : Type} (l : list A) (pred : A -> bool) : option A :=
  find pred l.

(** The updater that [toggleTag] hands to [setPendingFilters]. *)
Definition toggleTag (problems : list LeetCodeProblem) (tagName : string)
    (prev : PendingFilters) : PendingFilters :=
  let newSelectedTags := Js.newSet (Pending.selectedTags prev) in
  let newSelectedSubtags := Js.newSet (Pending.selectedSubtags prev) in
  let (newSelectedTags, newSelectedSubtags) :=
    if Js.has newSelectedTags tagName then
      (Js.delete newSelectedTags tagName,
       (* Remove subtags for this tag *)
       forEach problems (fun problem set =>
         match topicTags problem with
         | Some tags =>
             match arrayFind tags (fun t => String.eqb (name t) tagName) with
             | Some tag =>
                 match subtags tag with
                 | Some sts =>
                     forEach sts (fun subtag set => Js.delete set subtag) set
                 | None => set
                 end
             | None => set
             end
         | None => set
         end) newSelectedSubtags)
    else
      (Js.add newSelectedTags tagName, newSelectedSubtags) in
  Pending.withSelectedSubtags newSelectedSubtags
    (Pending.withSelectedTags newSelectedTags prev).

(** The updater that [toggleSubtag] hands to [setPendingFilters]. *)
Definition toggleSubtag (subtagName : string) (prev : PendingFilters)
    : PendingFilters :=
  let newSelectedSubtags := Js.newSet (Pending.selectedSubtags prev) in
  let newSelectedSubtags :=
    if Js.has newSelectedSubtags subtagName
    then Js.delete newSelectedSubtags subtagName
    else Js.add newSelectedSubtags subtagName in
  Pending.withSelectedSubtags newSelectedSubtags prev.

(** A value that may be [undefined] is truthy when it is a non-empty
    string. *)
Definition truthyArg (value : option string) : option string :=
  match value with
  | Some v => if Js.truthy v then Some v else None
  | None => None
  end.

(** The pair [(newApplied, newPending)] that [removeAppliedFilter] hands to
    [setAppliedFilters] and [setPendingFilters]. *)
Definition removeAppliedFilter (type : string) (value : option string)
    (appliedFilters : AppliedFilters) (pendingFilters : PendingFilters)
    : AppliedFilters * PendingFilters :=
  let newApplied := appliedFilters in
  let newPending := pendingFilters in
  if String.eqb type "search" then
    (Applied.withSearchTerm "" newApplied,
     Pending.withSearchTerm "" newPending)
  else if String.eqb type "difficulty" then
    (Applied.withDifficulty "all" newApplied,
     Pending.withDifficulty "all" newPending)
  else if String.eqb type "tag" then
    match truthyArg value with
    | Some v =>
        (Applied.withTags
           (Js.newSet (Js.delete (Applied.tags newApplied) v)) newApplied,
         Pending.withSelectedTags
           (Js.newSet (Js.delete (Pending.selectedTags newPending) v))
           newPending)
    | None => (newApplied, newPending)
    end
  else if String.eqb type "subtag" then
    match truthyArg value with
    | Some v =>
        (Applied.withSubtags
           (Js.newSet (Js.delete (Applied.subtags newApplied) v)) newApplied,
         Pending.withSelectedSubtags
           (Js.newSet (Js.delete (Pending.selectedSubtags newPending) v))
           newPending)
    | None => (newApplied, newPending)
    end
  else if String.eqb type "rating" then
    (Applied.withRating (num 0) (num 4000) newApplied,
     Pending.withRatingMax "" (Pending.withRatingMin "" newPending))
  else (newApplied, newPending).

(** ** The component as a state machine *)

(** The state that the handlers read and write: the dataset array, the
    three [useState] cells, and the memoised result of
    [filteredAndSortedProblems]. *)
Record State : Type := {
  problems : list LeetCodeProblem;
  appliedFilters : AppliedFilters;
  pendingFilters : PendingFilters;
  currentPage : Z;
  filteredAndSorted : list LeetCodeProblem
}.

(** A render after [setAppliedFilters]: the memo's dependency changed, so
    [filteredAndSortedProblems] runs again, on the dataset as it is. *)
Definition render (s : State) (applied : AppliedFilters)
    (pending : PendingFilters) (page : Z) : State :=
  let (result, problems') := filteredAndSortedProblems (problems s) applied in
  {| problems := problems';
     appliedFilters := applied;
     pendingFilters := pending;
     currentPage := page;
     filteredAndSorted := result |}.

Definition setCurrentPage (s : State) (page : Z) : State :=
  {| problems := problems s;
     appliedFilters := appliedFilters s;
     pendingFilters := pendingFilters s;
     currentPage := page;
     filteredAndSorted := filteredAndSorted s |}.

Definition setPendingFilters (s : State)
    (updater : PendingFilters -> PendingFilters) : State :=
  {| problems := problems s;
     appliedFilters := appliedFilters s;
     pendingFilters := updater (pendingFilters s);
     currentPage := currentPage s;
     filteredAndSorted := filteredAndSorted s |}.

(** The first render. *)
Definition initialState (dataset : list LeetCodeProblem) : State :=
  render {| problems := dataset;
            appliedFilters := defaultApplied;
            pendingFilters := defaultPending;
            currentPage := 1;
            filteredAndSorted := [] |}
         defaultApplied defaultPending 1.

Inductive Event : Type :=
  | ApplyFilters
  | ClearAllFilters
  | RemoveAppliedFilter (type : string) (value : option string)
  | PreviousPage
  | NextPage
  | ToggleTag (tagName : string)
  | ToggleSubtag (subtagName : string)
  | ChangeSearchTerm (v : string)
  | ChangeDifficulty (v : string)
  | ChangeSortBy (v : string)
  | ChangeRatingMin (v : string)
  | ChangeRatingMax (v : string).

Definition handle (s : State) (e : Event) : State :=
  match e with
  | ApplyFilters =>
      render s (applyFilters (pendingFilters s)) (pendingFilters s) 1
  | ClearAllFilters =>
      render s defaultApplied defaultPending 1
  | RemoveAppliedFilter type value =>
      let (newApplied, newPending) :=
        removeAppliedFilter type value (appliedFilters s) (pendingFilters s) in
      render s newApplied newPending 1
  | PreviousPage =>
      setCurrentPage s (Z.max 1 (currentPage s - 1))
  | NextPage =>
      setCurrentPage s
        (Z.min (totalPages (filteredAndSorted s)) (currentPage s + 1))
  | ToggleTag tagName => setPendingFilters s (toggleTag (problems s) tagName)
  | ToggleSubtag subtagName => setPendingFilters s (toggleSubtag subtagName)
  | ChangeSearchTerm v => setPendingFilters s (Pending.withSearchTerm v)
  | ChangeDifficulty v => setPendingFilters s (Pending.withDifficulty v)
  | ChangeSortBy v => setPendingFilters s (Pending.withSortBy v)
  | ChangeRatingMin v => setPendingFilters s (Pending.withRatingMin v)
  | ChangeRatingMax v => setPendingFilters s (Pending.withRatingMax v)
  end.

(** The two page buttons are rendered only when [totalPages > 1], and each
    is disabled at its end of the range. *)
Definition offered (s : State) (e : Event) : bool :=
  match e with
  | PreviousPage =>
      (totalPages (filteredAndSorted s) >? 1) && negb (currentPage s =? 1)
  | NextPage =>
      (totalPages (filteredAndSorted s) >? 1) &&
      negb (currentPage s =? totalPages (filteredAndSorted s))
  | _ => true
  end.

(** The states of a session on a dataset: the first render, the render
    that follows the loading of saved filters when the component mounts,
    and whatever the offered events lead to. *)
Inductive reachable (dataset : list LeetCodeProblem) : State -> Prop :=
  | reachable_initial :
      reachable dataset (initialState dataset)
  | reachable_saved (applied : AppliedFilters) (pending : PendingFilters) :
      reachable dataset (render (initialState dataset) applied pending 1)
  | reachable_step (s : State) (e : Event) :
      reachable dataset s ->
      offered s e = true ->
      reachable dataset (handle s e).

End Route.

End Index.

(* ================================================================== *)
(** * Vocabulary of the properties *)
(* ================================================================== *)

Module Props.

Import Types Index.

(** Every code unit of [s] satisfies [P]. *)
Fixpoint allUnits (P : ascii -> bool) (s : string) : bool :=
  match s with
  | EmptyString => true
  | String c s' => P c && allUnits P s'
  end.

(** The code units of a decimal rendering: the ten digits and the minus
    sign. *)
Definition decimalUnit (c : ascii) : bool :=
  let n := N_of_ascii c in
  (((48 <=? n) && (n <=? 57)) || (n =? 45))%N.

(** [s] is not after [t] in the order of code units. *)
Definition string_le (s t : string) : Prop := Js.string_ltb t s = false.

(** [s] is before [t] in the order of code units. *)
Definition string_lt (s t : string) : Prop := Js.string_ltb s t = true.

(** [t] occurs in [s] as a contiguous substring. *)
Definition occursIn (t s : string) : Prop :=
  exists pre post, s = pre ++ t ++ post.

(** Some substring of [s] equals [t] up to the case of letters. *)
Definition occursInIgnoringCase (t s : string) : Prop :=
  exists pre w post,
    s = pre ++ w ++ post /\ Js.toLowerCase w = Js.toLowerCase t.

(** [tag] is one of the tags of [problem]. *)
Definition tagOf (problem : LeetCodeProblem) (tag : TopicTag) : Prop :=
  exists tags, topicTags problem = Some tags /\ In tag tags.

(** [subtag] is one of the subtags of [tag]. *)
Definition subtagOf (tag : TopicTag) (subtag : string) : Prop :=
  exists sts, subtags tag = Some sts /\ In subtag sts.

(** The tag that [topicTags.find(t => t.name === tagName)] returns. *)
Definition firstTagNamed (problem : LeetCodeProblem) (tagName : string)
    (tag : TopicTag) : Prop :=
  exists tags,
    topicTags problem = Some tags /\
    arrayFind tags (fun t => String.eqb (name t) tagName) = Some tag.

(** [subtag] is listed, in some problem of the dataset, under the first tag
    of that problem named [tagName]. *)
Definition listedUnder (problems : list LeetCodeProblem) (tagName : string)
    (subtag : string) : Prop :=
  exists problem tag,
    In problem problems /\ firstTagNamed problem tagName tag /\
    subtagOf tag subtag.

(** [subtag] is listed, in some problem of the dataset, under a tag whose
    name is in [selected]. *)
Definition offeredUnder (problems : list LeetCodeProblem)
    (selected : list string) (subtag : string) : Prop :=
  exists problem tag,
    In problem problems /\ tagOf problem tag /\
    In (name tag) selected /\ subtagOf tag subtag.

(** The page numbers [1 .. n]. *)
Definition pageNumbers (n : Z) : list Z :=
  map Z.of_nat (seq 1 (Z.to_nat n)).

(** The condition of stage [cond] with predicate [pred], as one
    predicate. *)
Definition passes (f : AppliedFilters) (p : LeetCodeProblem) : bool :=
  implb (Js.truthy (Applied.searchTerm f)) (searchPred f p) &&
  implb (negb (String.eqb (Applied.difficulty f) "all")) (difficultyPred f p) &&
  implb (Js.size (Applied.tags f) >? 0) (tagPred f p) &&
  implb (Js.size (Applied.subtags f) >? 0) (subtagPred f p) &&
  implb (Js.gt (Applied.ratingMin f) (num 0) ||
         Js.lt (Applied.ratingMax f) (num 4000)) (ratingPred f p).

(** Whether some filter stage runs. *)
Definition filtersActive (f : AppliedFilters) : bool :=
  Js.truthy (Applied.searchTerm f) ||
  negb (String.eqb (Applied.difficulty f) "all") ||
  (Js.size (Applied.tags f) >? 0) ||
  (Js.size (Applied.subtags f) >? 0) ||
  (Js.gt (Applied.ratingMin f) (num 0) ||
   Js.lt (Applied.ratingMax f) (num 4000)).

(** The rating stage runs. *)
Definition ratingStageRuns (f : AppliedFilters) : Prop :=
  (exists lo, Applied.ratingMin f = Js.Num lo /\ (0 < lo)%Q) \/
  (exists hi, Applied.ratingMax f = Js.Num hi /\ (hi < 4000)%Q).

(** The rating of [p] lies between the bounds of [f], both included. *)
Definition ratingInRange (f : AppliedFilters) (p : LeetCodeProblem) : Prop :=
  exists lo hi,
    Applied.ratingMin f = Js.Num lo /\ Applied.ratingMax f = Js.Num hi /\
    (lo <= Rating p)%Q /\ (Rating p <= hi)%Q.

(** The page number is within the pages of the current result, or is 1
    when the result is empty. *)
Definition pageInRange (s : State) : Prop :=
  let n := totalPages (filteredAndSorted s) in
  (1 <= currentPage s <= n) \/ (n = 0 /\ currentPage s = 1).

(** The memoised result is the evaluation of the applied filters of [s] on
    an arrangement of the dataset, which left the dataset array as [s] has
    it. *)
Definition memoCurrent (localeCompare : string -> string -> Q)
    (dataset : list LeetCodeProblem) (s : State) : Prop :=
  exists before,
    Permutation before dataset /\
    filteredAndSortedProblems localeCompare before (appliedFilters s) =
      (filteredAndSorted s, problems s).

End Props.

(** ** The example scenario of the specification *)

Module Example.

Import Types Index.

Definition tag (n : string) (sts : option (list string)) : TopicTag :=
  {| name := n; slug := None; subtags := sts |}.

Definition details (t : string) (d : Difficulty) : ProblemDetails :=
  {| title := t; difficulty := d; questionId := "" |}.

Definition problem (id : Z) (t : string) (rating : Z)
    (d : option Difficulty) (tags : list TopicTag) : LeetCodeProblem :=
  {| Rating := inject_Z rating;
     ID := id;
     Title := t;
     TitleSlug := "";
     topicTags := Some tags;
     problemDetails := option_map (details t) d |}.

Definition twoSum : LeetCodeProblem :=
  problem 1 "Two Sum" 1200 (Some Easy) [tag "Array" None].

Definition add : LeetCodeProblem :=
  problem 2 "Add" 2200 None [].

Definition sumTree : LeetCodeProblem :=
  problem 3 "Sum Tree" 1800 (Some Medium)
    [tag "Array" (Some ["Prefix Sum"])].

Definition dataset : list LeetCodeProblem := [twoSum; add; sumTree].

Definition searchSum : AppliedFilters :=
  Applied.withSearchTerm "sum" defaultApplied.

(** A collation for the examples: the order of code units. *)
Definition localeCompare (s t : string) : Q := Js.defaultCompare s t.

(** Bounds the wrong way round. *)
Definition degenerate : AppliedFilters :=
  Applied.withRating (num 3000) (num 1000) defaultApplied.

(** Bounds that are not the default ones and that the guard of the rating
    stage lets through. *)
Definition wideBounds : AppliedFilters :=
  Applied.withRating (num 0) (num 5000) defaultApplied.

Definition outlier : LeetCodeProblem :=
  problem 9 "Outlier" 6000 None [].

(** A text typed in the box of the lower bound that is no number. *)
Definition typedAbc : PendingFilters :=
  Pending.withRatingMax "3000" (Pending.withRatingMin "abc" defaultPending).

(** The bounds that the same input would give if the lower one were
    sanitized. *)
Definition upTo3000 : AppliedFilters :=
  Applied.withRating (num 0) (num 3000) defaultApplied.

(** Tags A with subtags x, y and B with subtags y, z. *)
Definition tagA : TopicTag := tag "A" (Some ["x"; "y"]).
Definition tagB : TopicTag := tag "B" (Some ["y"; "z"]).

Definition twoTags : list LeetCodeProblem :=
  [problem 1 "First" 1000 None [tagA]; problem 2 "Second" 1100 None [tagB]].

Definition bothSelected : PendingFilters :=
  Pending.withSelectedSubtags ["x"; "y"; "z"]
    (Pending.withSelectedTags ["A"; "B"] defaultPending).

Definition selectedPrefixSum : AppliedFilters :=
  Applied.withSubtags ["Prefix Sum"] defaultApplied.

(** [n] problems, numbered from 1, with ascending ratings. *)
Definition numbered (n : nat) : list LeetCodeProblem :=
  map (fun i => problem (Z.of_nat i) "Problem" (1000 + Z.of_nat i) None [])
      (seq 1 n).

End Example.

(** ** The rating stage as the specification words it *)

Module Claimed.

Import Types Index.

(** The bounds are those of the default range. *)
Definition boundsAreDefault (f : AppliedFilters) : bool :=
  match Applied.ratingMin f, Applied.ratingMax f with
  | Js.Num lo, Js.Num hi =>
      Qeq_bool lo (inject_Z 0) && Qeq_bool hi (inject_Z 4000)
  | _, _ => false
  end.

(** The stage runs whenever the bounds differ from the default range. *)
Definition ratingStage (f : AppliedFilters) :=
  filterIf (negb (boundsAreDefault f)) (ratingPred f).

(** [subtag] is listed under a tag named [tagName] and under no tag of
    another name: the subtags that deselecting [tagName] is to remove. *)
Definition onlyUnder (problems : list LeetCodeProblem) (tagName : string)
    (subtag : string) : Prop :=
  (exists problem tag,
      In problem problems /\ Props.tagOf problem tag /\
      name tag = tagName /\ Props.subtagOf tag subtag) /\
  ~ (exists problem tag,
      In problem problems /\ Props.tagOf problem tag /\
      name tag <> tagName /\ Props.subtagOf tag subtag).

End Claimed.

(* ================================================================== *)
(** * More of the route: what it displays and what it saves *)
(* ================================================================== *)

Module View.

Import Types Index.

(** [hasActiveFilters], as the condition of the card of applied filters *)
Definition hasActiveFilters (appliedFilters : AppliedFilters) : bool :=
  Js.truthy (Applied.searchTerm appliedFilters) ||
  negb (String.eqb (Applied.difficulty appliedFilters) "all") ||
  (Js.size (Applied.tags appliedFilters) >? 0) ||
  (Js.size (Applied.subtags appliedFilters) >? 0) ||
  Js.gt (Applied.ratingMin appliedFilters) (num 0) ||
  Js.lt (Applied.ratingMax appliedFilters) (num 4000).

(** The two numbers of "Showing a - b of n problems":
    [Math.min((currentPage - 1) * pageSize + 1, length)] and
    [Math.min(currentPage * pageSize, length)]. *)
Definition showingFrom (filteredAndSorted : list LeetCodeProblem)
    (currentPage : Z) : Z :=
  Z.min ((currentPage - 1) * pageSize + 1)
        (Z.of_nat (List.length filteredAndSorted)).

Definition showingTo (filteredAndSorted : list LeetCodeProblem)
    (currentPage : Z) : Z :=
  Z.min (currentPage * pageSize) (Z.of_nat (List.length filteredAndSorted)).

(** [problem.problemDetails?.difficulty || "Hard"], the difficulty that a
    row shows. *)
Definition shownDifficulty (problem : LeetCodeProblem) : string :=
  match problemDetails problem with
  | Some d => difficultyName (difficulty d)
  | None => "Hard"
  end.

End View.

(** The filters saved under the key [leetcode-dashboard-filters].
    [applyFilters] is the only writer of the key, so the stored text is
    represented by the value it denotes, in the shape that [applyFilters]
    gives it: [JSON.stringify] turns the two sets into arrays and a [NaN]
    bound into [null], and [JSON.parse] gives back what was written. *)

Module Storage.

Import Types Index.

Record SavedFilters : Type := {
  searchTerm : string;
  difficulty : string;
  tags : list string;
  subtags : list string;
  ratingMin : option Q;
  ratingMax : option Q;
  sortBy : string
}.

(** A number as [JSON.stringify] writes it: [NaN] becomes [null]. *)
Definition jsonNumber (n : Js.number) : option Q :=
  match n with
  | Js.NaN => None
  | Js.Num q => Some q
  end.

(** The value that [applyFilters] stores for [newFilters]. *)
Definition saveFilters (newFilters : AppliedFilters) : SavedFilters :=
  {| searchTerm := Applied.searchTerm newFilters;
     difficulty := Applied.difficulty newFilters;
     tags := Js.arrayFrom (Applied.tags newFilters);
     subtags := Js.arrayFrom (Applied.subtags newFilters);
     ratingMin := jsonNumber (Applied.ratingMin newFilters);
     ratingMax := jsonNumber (Applied.ratingMax newFilters);
     sortBy := Applied.sortBy newFilters |}.

(** [text || fallback] on a string *)
Definition orString (text fallback : string) : string :=
  if Js.truthy text then text else fallback.

(** A number or [null] is truthy when it is a number other than zero. *)
Definition truthyNumber (v : option Q) : option Q :=
  match v with
  | Some q => if Qeq_bool q 0 then None else Some q
  | None => None
  end.

(** [value || fallback] on a number or [null], with a number as fallback *)
Definition orNumber (v : option Q) (fallback : Z) : Js.number :=
  match truthyNumber v with
  | Some q => Js.Num q
  | None => num fallback
  end.

(** The value that the effect run on mount hands to [setAppliedFilters]. *)
Definition loadApplied (filters : SavedFilters) : AppliedFilters :=
  {| Applied.searchTerm := orString (searchTerm filters) "";
     Applied.difficulty := orString (difficulty filters) "all";
     Applied.tags := Js.newSet (tags filters);
     Applied.subtags := Js.newSet (subtags filters);
     Applied.ratingMin := orNumber (ratingMin filters) 0;
     Applied.ratingMax := orNumber (ratingMax filters) 4000;
     Applied.sortBy := orString (sortBy filters) "rating-asc" |}.

Section Pending.

(** The conversion of a number to a string is a parameter; the facts
    below use it on integers only. *)
Variable numberToString : Q -> string.

(** [value || ""] on a number or [null].  A truthy number is stored as it
    is in the pending field; every reader of the field ([applyFilters],
    the input box) takes it through its conversion to a string, which is
    what the model stores. *)
Definition orEmpty (v : option Q) : string :=
  match truthyNumber v with
  | Some q => numberToString q
  | None => ""
  end.

(** The value that the effect run on mount hands to [setPendingFilters]. *)
Definition loadPending (filters : SavedFilters) : PendingFilters :=
  {| Pending.searchTerm := orString (searchTerm filters) "";
     Pending.difficulty := orString (difficulty filters) "all";
     Pending.selectedTags := Js.newSet (tags filters);
     Pending.selectedSubtags := Js.newSet (subtags filters);
     Pending.ratingMin := orEmpty (ratingMin filters);
     Pending.ratingMax := orEmpty (ratingMax filters);
     Pending.sortBy := orString (sortBy filters) "rating-asc" |}.

End Pending.

End Storage.

(** ** More vocabulary *)

Module MoreProps.

Import Types Index Props.

(** Two collections of strings have the same members. *)
Definition sameMembers (a b : list string) : Prop :=
  forall x, In x a <-> In x b.

(** [name] is the name of some tag of some problem of the dataset. *)
Definition tagNameIn (problems : list LeetCodeProblem) (tagName : string)
    : Prop :=
  exists problem tag,
    In problem problems /\ tagOf problem tag /\ name tag = tagName.

(** [p] has a tag whose name is selected. *)
Definition hasSelectedTag (f : AppliedFilters) (p : LeetCodeProblem) : Prop :=
  exists tag, tagOf p tag /\ In (name tag) (Applied.tags f).

(** [p] has a tag with a selected subtag. *)
Definition hasSelectedSubtag (f : AppliedFilters) (p : LeetCodeProblem)
    : Prop :=
  exists tag subtag,
    tagOf p tag /\ subtagOf tag subtag /\ In subtag (Applied.subtags f).

(** [p] matches the search term. *)
Definition matchesSearch (f : AppliedFilters) (p : LeetCodeProblem) : Prop :=
  occursInIgnoringCase (Applied.searchTerm f) (Title p) \/
  occursIn (Applied.searchTerm f) (Js.toString (ID p)).

(** [p] satisfies every stage that runs for [f]. *)
Definition satisfies (f : AppliedFilters) (p : LeetCodeProblem) : Prop :=
  (Applied.searchTerm f <> "" -> matchesSearch f p) /\
  (Applied.difficulty f <> "all" ->
     View.shownDifficulty p = Applied.difficulty f) /\
  (Applied.tags f <> [] -> hasSelectedTag f p) /\
  (Applied.subtags f <> [] -> hasSelectedSubtag f p) /\
  (ratingStageRuns f -> ratingInRange f p).

(** A comparator puts [x] no later than [y]. *)
Definition noLater {A : Type} (cmp : A -> A -> Q) (x y : A) : Prop :=
  (cmp x y <= 0)%Q.

(** A comparator that orders its arguments consistently. *)
Definition consistent {A : Type} (cmp : A -> A -> Q) : Prop :=
  (forall x y, noLater cmp x y \/ noLater cmp y x) /\
  (forall x y z, noLater cmp x y -> noLater cmp y z -> noLater cmp x z).

(** The sort key is none of the five that the comparator tells from
    "rating-asc". *)
Definition sortsByRatingAscending (key : string) : Prop :=
  key <> "rating-desc" /\ key <> "id-asc" /\ key <> "id-desc" /\
  key <> "title-asc" /\ key <> "title-desc".

(** The names of the tags of a problem are pairwise distinct. *)
Definition uniqueTagNames (problem : LeetCodeProblem) : Prop :=
  match topicTags problem with
  | Some tags => NoDup (map name tags)
  | None => True
  end.

(** Every selected subtag is among the subtags on offer for the selected
    tags. *)
Definition subtagsOffered (problems : list LeetCodeProblem)
    (p : PendingFilters) : Prop :=
  forall subtag,
    In subtag (Pending.selectedSubtags p) ->
    In subtag (availableSubtags problems (Pending.selectedTags p)).

(** An integer that a number holds exactly. *)
Definition safeInteger (z : Z) : Prop := Z.abs z < 2 ^ 53.

(** The value of a decimal numeral read after the digits of [acc]. *)
Fixpoint digitsValue (d : Decimal.uint) (acc : Z) : Z :=
  match d with
  | Decimal.Nil => acc
  | Decimal.D0 d' => digitsValue d' (10 * acc + 0)
  | Decimal.D1 d' => digitsValue d' (10 * acc + 1)
  | Decimal.D2 d' => digitsValue d' (10 * acc + 2)
  | Decimal.D3 d' => digitsValue d' (10 * acc + 3)
  | Decimal.D4 d' => digitsValue d' (10 * acc + 4)
  | Decimal.D5 d' => digitsValue d' (10 * acc + 5)
  | Decimal.D6 d' => digitsValue d' (10 * acc + 6)
  | Decimal.D7 d' => digitsValue d' (10 * acc + 7)
  | Decimal.D8 d' => digitsValue d' (10 * acc + 8)
  | Decimal.D9 d' => digitsValue d' (10 * acc + 9)
  end.

(** One of the ten digits. *)
Definition decimalDigit (c : ascii) : bool :=
  let n := N_of_ascii c in ((48 <=? n) && (n <=? 57))%N.

End MoreProps.

(** ** More example inputs *)

Module MoreExamples.

Import Types Index.

Definition sortedBy (key : string) : AppliedFilters :=
  {| Applied.searchTerm := "";
     Applied.difficulty := "all";
     Applied.tags := [];
     Applied.subtags := [];
     Applied.ratingMin := num 0;
     Applied.ratingMax := num 4000;
     Applied.sortBy := key |}.

Definition onlyHard : AppliedFilters :=
  Applied.withDifficulty "Hard" defaultApplied.

Definition selectedArray : AppliedFilters :=
  Applied.withTags ["Array"] defaultApplied.

(** Three problems, the first and the last with the same rating. *)
Definition tied : list LeetCodeProblem :=
  [Example.problem 1 "B" 1200 None [];
   Example.problem 2 "A" 1500 None [];
   Example.problem 3 "C" 1200 None []].

(** The problems rated 1200. *)
Definition rated1200 (p : LeetCodeProblem) : bool :=
  Qeq_bool (Rating p) (inject_Z 1200).

(** Bounds typed as 1000 and 3000. *)
Definition typedBounds : PendingFilters :=
  Pending.withRatingMax "3000" (Pending.withRatingMin "1000" defaultPending).

(** A conversion of numbers to strings that is right on integers. *)
Definition numberToString (q : Q) : string := Js.toString (Qfloor q).

(** Only the tag B selected, with its subtag z. *)
Definition onlyB : PendingFilters :=
  Pending.withSelectedSubtags ["z"]
    (Pending.withSelectedTags ["B"] defaultPending).

(** Applied filters with the tags A and B. *)
Definition appliedAB : AppliedFilters :=
  Applied.withTags ["A"; "B"] defaultApplied.

End MoreExamples.

(* ================================================================== *)
(** * Facts about the built-ins *)
(* ================================================================== *)

Module JsFacts.

Import Props.

(** ** Substrings *)

Lemma startsWith_spec (s t : string) :
  Js.startsWith s t = true <-> exists post, s = t ++ post.
Proof.
  revert s; induction t as [|b t IH]; intros [|a s]; simpl.
  - split; [intros _; now exists "" | reflexivity].
  - split; [intros _; now exists (String a s) | reflexivity].
  - split; [discriminate | intros [post H]; discriminate].
  - rewrite andb_true_iff, IH, Ascii.eqb_eq. split.
    + intros [-> [post ->]]. now exists post.
    + intros [post H]. injection H as -> ->. split; [reflexivity | now exists post].
Qed.

Lemma includes_spec (s t : string) :
  Js.includes s t = true <-> exists pre post, s = pre ++ t ++ post.
Proof.
  induction s as [|a s IH].
  - change (Js.includes "" t) with (Js.startsWith "" t || false).
    rewrite orb_false_r, startsWith_spec. split.
    + intros [post H]. now exists "", post.
    + intros [pre [post H]]. destruct pre; [now exists post | discriminate].
  - change (Js.includes (String a s) t)
      with (Js.startsWith (String a s) t || Js.includes s t).
    rewrite orb_true_iff, startsWith_spec, IH. split.
    + intros [[post H] | [pre [post H]]].
      * now exists "", post.
      * exists (String a pre), post. simpl. now rewrite H.
    + intros [pre [post H]]. destruct pre as [|c pre].
      * left. now exists post.
      * right. simpl in H. injection H as _ H. now exists pre, post.
Qed.

(** ** Lower case *)

Lemma toLowerCase_app (a b : string) :
  Js.toLowerCase (a ++ b) = Js.toLowerCase a ++ Js.toLowerCase b.
Proof.
  induction a as [|c a IH]; simpl; [reflexivity | now rewrite IH].
Qed.

Lemma toLowerCase_split (s a b : string) :
  Js.toLowerCase s = a ++ b ->
  exists a' b', s = a' ++ b' /\ Js.toLowerCase a' = a /\ Js.toLowerCase b' = b.
Proof.
  revert s; induction a as [|c a IH]; intros s H.
  - exists "", s. auto.
  - destruct s as [|d s]; [discriminate |].
    simpl in H. injection H as Hc H.
    destruct (IH _ H) as [a' [b' [-> [Ha Hb]]]].
    exists (String d a'), b'. simpl. now rewrite Hc, Ha.
Qed.

(** A case-insensitive occurrence: some substring of [s] has the lower
    case of [t]. *)
Lemma includes_lower (s t : string) :
  Js.includes (Js.toLowerCase s) (Js.toLowerCase t) = true <->
  exists pre w post,
    s = pre ++ w ++ post /\ Js.toLowerCase w = Js.toLowerCase t.
Proof.
  rewrite includes_spec. split.
  - intros [pre [post H]].
    destruct (toLowerCase_split _ _ _ H) as [pre' [rest [-> [_ Hrest]]]].
    destruct (toLowerCase_split _ _ _ Hrest) as [w [post' [-> [Hw _]]]].
    now exists pre', w, post'.
  - intros [pre [w [post [-> Hw]]]].
    exists (Js.toLowerCase pre), (Js.toLowerCase post).
    now rewrite !toLowerCase_app, Hw.
Qed.

(** ** Strings over a class of code units *)

Lemma allUnits_app (P : ascii -> bool) (a b : string) :
  allUnits P (a ++ b) = allUnits P a && allUnits P b.
Proof.
  induction a as [|c a IH]; simpl; [reflexivity | now rewrite IH, andb_assoc].
Qed.

Lemma allUnits_includes (P : ascii -> bool) (s t : string) :
  allUnits P s = true -> Js.includes s t = true -> allUnits P t = true.
Proof.
  intros Hs Ht. apply includes_spec in Ht as [pre [post ->]].
  rewrite !allUnits_app, !andb_true_iff in Hs. tauto.
Qed.

Ltac each_unit c :=
  destruct c as [[] [] [] [] [] [] [] []]; vm_compute; try reflexivity;
  try discriminate.

Lemma lower_unit_decimal (c : ascii) :
  decimalUnit c = true -> Js.lower_unit c = c.
Proof. each_unit c. Qed.

Lemma decimal_lower_unit (c : ascii) :
  decimalUnit (Js.lower_unit c) = true -> Js.lower_unit c = c.
Proof. each_unit c. Qed.

Lemma toLowerCase_decimal (s : string) :
  allUnits decimalUnit s = true -> Js.toLowerCase s = s.
Proof.
  induction s as [|c s IH]; simpl; [reflexivity |].
  rewrite andb_true_iff. intros [Hc Hs].
  now rewrite (lower_unit_decimal c Hc), IH.
Qed.

Lemma decimal_toLowerCase (s : string) :
  allUnits decimalUnit (Js.toLowerCase s) = true -> Js.toLowerCase s = s.
Proof.
  induction s as [|c s IH]; simpl; [reflexivity |].
  rewrite andb_true_iff. intros [Hc Hs].
  now rewrite (decimal_lower_unit c Hc), IH.
Qed.

Lemma string_of_uint_decimal (d : Decimal.uint) :
  allUnits decimalUnit (NilEmpty.string_of_uint d) = true.
Proof. induction d; simpl; auto. Qed.

Lemma toString_decimal (z : Z) :
  allUnits decimalUnit (Js.toString z) = true.
Proof.
  unfold Js.toString, NilZero.string_of_int, NilZero.string_of_uint.
  destruct (Z.to_int z) as [d | d]; destruct d; simpl;
    try reflexivity; apply string_of_uint_decimal.
Qed.

(** Lowering the needle does not change what a decimal rendering
    contains. *)
Lemma includes_decimal_lower (d t : string) :
  allUnits decimalUnit d = true ->
  Js.includes d (Js.toLowerCase t) = Js.includes d t.
Proof.
  intros Hd.
  destruct (Js.includes d (Js.toLowerCase t)) eqn:E1.
  - pose proof (allUnits_includes _ _ _ Hd E1) as H.
    apply decimal_toLowerCase in H. now rewrite <- H, E1.
  - destruct (Js.includes d t) eqn:E2; [| reflexivity].
    pose proof (allUnits_includes _ _ _ Hd E2) as H.
    apply toLowerCase_decimal in H. rewrite H in E1. congruence.
Qed.

(** ** Sets *)

Lemma has_In (s : Js.StringSet) (x : string) :
  Js.has s x = true <-> In x s.
Proof.
  unfold Js.has. rewrite existsb_exists. split.
  - intros [y [Hy E]]. apply String.eqb_eq in E. now subst.
  - intros H. exists x. split; [assumption | apply String.eqb_refl].
Qed.

Lemma arrayIncludes_In (l : list string) (x : string) :
  Js.arrayIncludes l x = true <-> In x l.
Proof. apply has_In. Qed.

Lemma In_add (s : Js.StringSet) (x y : string) :
  In y (Js.add s x) <-> In y s \/ y = x.
Proof.
  unfold Js.add. destruct (Js.has s x) eqn:E.
  - apply has_In in E. split; [auto | intros [H | ->]; assumption].
  - rewrite in_app_iff. simpl. intuition.
Qed.

Lemma In_delete (s : Js.StringSet) (x y : string) :
  In y (Js.delete s x) <-> In y s /\ y <> x.
Proof.
  unfold Js.delete. rewrite filter_In, negb_true_iff, String.eqb_neq.
  intuition.
Qed.

Lemma In_fold_add (l : list string) (acc : Js.StringSet) (y : string) :
  In y (fold_left Js.add l acc) <-> In y acc \/ In y l.
Proof.
  revert acc; induction l as [|x l IH]; intros acc; simpl.
  - tauto.
  - rewrite IH, In_add. intuition.
Qed.

Lemma In_newSet (l : list string) (y : string) :
  In y (Js.newSet l) <-> In y l.
Proof. unfold Js.newSet. rewrite In_fold_add. simpl. tauto. Qed.

Lemma NoDup_add (s : Js.StringSet) (x : string) :
  NoDup s -> NoDup (Js.add s x).
Proof.
  intros H. unfold Js.add. destruct (Js.has s x) eqn:E; [assumption |].
  apply NoDup_app; [assumption | repeat constructor; auto |].
  intros a Ha [<- | []].
  apply has_In in Ha. congruence.
Qed.

Lemma NoDup_fold_add (l : list string) (acc : Js.StringSet) :
  NoDup acc -> NoDup (fold_left Js.add l acc).
Proof.
  revert acc; induction l as [|x l IH]; intros acc H; simpl;
    [assumption | apply IH, NoDup_add, H].
Qed.

(** ** Sorting *)

Section SortFacts.
Context {A : Type} (cmp : A -> A -> Q).

Lemma insert_perm (x : A) (l : list A) :
  Permutation (Js.insert cmp x l) (x :: l).
Proof.
  induction l as [|y l IH]; simpl; [reflexivity |].
  destruct (Qle_bool (cmp x y) 0); [reflexivity |].
  rewrite IH. apply perm_swap.
Qed.

Lemma sort_perm (l : list A) : Permutation (Js.sort cmp l) l.
Proof.
  induction l as [|x l IH]; simpl; [reflexivity |].
  unfold Js.sort in *. simpl. rewrite insert_perm. now constructor.
Qed.

Lemma In_sort (l : list A) (x : A) : In x (Js.sort cmp l) <-> In x l.
Proof.
  split; apply Permutation_in; [| symmetry]; apply sort_perm.
Qed.

End SortFacts.

(** ** The order of strings *)

Lemma string_ltb_irrefl (s : string) : Js.string_ltb s s = false.
Proof.
  induction s as [|a s IH]; simpl; [reflexivity |].
  now rewrite N.ltb_irrefl.
Qed.

Lemma string_ltb_trans (s t u : string) :
  Js.string_ltb s t = true -> Js.string_ltb t u = true ->
  Js.string_ltb s u = true.
Proof.
  revert t u; induction s as [|a s IH]; intros [|b t] [|c u]; simpl;
    try discriminate; try reflexivity.
  destruct (N.ltb_spec (N_of_ascii a) (N_of_ascii b)),
           (N.ltb_spec (N_of_ascii b) (N_of_ascii a)),
           (N.ltb_spec (N_of_ascii b) (N_of_ascii c)),
           (N.ltb_spec (N_of_ascii c) (N_of_ascii b)),
           (N.ltb_spec (N_of_ascii a) (N_of_ascii c)),
           (N.ltb_spec (N_of_ascii c) (N_of_ascii a));
    try discriminate; try reflexivity; try lia.
  apply IH.
Qed.

Lemma string_ltb_total (s t : string) :
  Js.string_ltb s t = false -> Js.string_ltb t s = false -> s = t.
Proof.
  revert t; induction s as [|a s IH]; intros [|b t]; simpl;
    try discriminate; try reflexivity.
  destruct (N.ltb_spec (N_of_ascii a) (N_of_ascii b)),
           (N.ltb_spec (N_of_ascii b) (N_of_ascii a));
    try discriminate.
  intros H1 H2. f_equal; [| now apply IH].
  rewrite <- (ascii_N_embedding a), <- (ascii_N_embedding b).
  f_equal. lia.
Qed.

Lemma string_ltb_asym (s t : string) :
  Js.string_ltb s t = true -> Js.string_ltb t s = false.
Proof.
  intros H. destruct (Js.string_ltb t s) eqn:E; [| reflexivity].
  pose proof (string_ltb_trans _ _ _ H E) as C.
  now rewrite string_ltb_irrefl in C.
Qed.

Lemma string_le_trans (s t u : string) :
  string_le s t -> string_le t u -> string_le s u.
Proof.
  unfold string_le. intros H1 H2.
  destruct (Js.string_ltb u s) eqn:E; [| reflexivity].
  destruct (Js.string_ltb t u) eqn:E2.
  - pose proof (string_ltb_trans _ _ _ E2 E). congruence.
  - pose proof (string_ltb_total _ _ E2 H2). subst. congruence.
Qed.

Lemma defaultCompare_le (x y : string) :
  Qle_bool (Js.defaultCompare x y) 0 = true <-> string_le x y.
Proof.
  unfold Js.defaultCompare, string_le.
  destruct (Js.string_ltb x y) eqn:E1.
  - rewrite (string_ltb_asym _ _ E1). now split.
  - destruct (Js.string_ltb y x); now split.
Qed.

Lemma insert_sorted (x : string) (l : list string) :
  StronglySorted string_le l ->
  StronglySorted string_le (Js.insert Js.defaultCompare x l).
Proof.
  induction 1 as [|y l Hl IH Hy]; simpl.
  - repeat constructor.
  - destruct (Qle_bool (Js.defaultCompare x y) 0) eqn:E.
    + apply defaultCompare_le in E.
      constructor; [now constructor |].
      constructor; [assumption |].
      eapply Forall_impl; [| exact Hy].
      intros z Hz. eapply string_le_trans; eassumption.
    + constructor; [assumption |].
      rewrite Forall_forall. intros z Hz.
      apply (Permutation_in _ (insert_perm _ _ _)) in Hz.
      destruct Hz as [<- | Hz].
      * unfold string_le.
        destruct (Js.string_ltb x y) eqn:E2; [| reflexivity].
        exfalso. assert (string_le x y) as C
          by (unfold string_le; now apply string_ltb_asym).
        apply defaultCompare_le in C. congruence.
      * rewrite Forall_forall in Hy. now apply Hy.
Qed.

Lemma sort_sorted (l : list string) :
  StronglySorted string_le (Js.sort Js.defaultCompare l).
Proof.
  induction l as [|x l IH]; [constructor |].
  unfold Js.sort in *. simpl. now apply insert_sorted.
Qed.

(** A sorted list without repetition is strictly ascending. *)
Lemma sorted_NoDup_strict (l : list string) :
  StronglySorted string_le l -> NoDup l ->
  StronglySorted (fun s t => Js.string_ltb s t = true) l.
Proof.
  induction 1 as [|x l Hl IH Hx]; intros Hnd; [constructor |].
  inversion Hnd as [|? ? Hnotin Hnd']; subst.
  constructor; [now apply IH |].
  rewrite Forall_forall in *. intros y Hy.
  destruct (Js.string_ltb x y) eqn:E; [reflexivity |].
  exfalso. apply Hnotin.
  rewrite (string_ltb_total x y E (Hx y Hy)). assumption.
Qed.

Lemma sort_strict (l : list string) :
  NoDup l ->
  StronglySorted (fun s t => Js.string_ltb s t = true)
    (Js.sort Js.defaultCompare l).
Proof.
  intros H. apply sorted_NoDup_strict; [apply sort_sorted |].
  eapply Permutation_NoDup; [symmetry; apply sort_perm | assumption].
Qed.

End JsFacts.

(* ================================================================== *)
(** * Facts about the route *)
(* ================================================================== *)

Module IndexFacts.

Import Types Index Props JsFacts.

(** ** Loops over an accumulated set *)

Section ForEach.
Context {A : Type}.
Variable body : A -> Js.StringSet -> Js.StringSet.

(** A loop whose body only adds members. *)
Lemma forEach_grows (adds : A -> string -> Prop) :
  (forall a set y, In y (body a set) <-> In y set \/ adds a y) ->
  forall l set y,
    In y (forEach l body set) <->
    In y set \/ exists a, In a l /\ adds a y.
Proof.
  intros Hbody l. unfold forEach.
  induction l as [|a l IH]; intros set y; simpl.
  - split; [auto | intros [H | [a [[] _]]]; exact H].
  - rewrite IH, Hbody. split.
    + intros [[H | H] | [b [Hb H]]]; eauto.
    + intros [H | [b [[<- | Hb] H]]]; eauto.
Qed.

(** A loop whose body only removes members. *)
Lemma forEach_shrinks (drops : A -> string -> Prop) :
  (forall a set y, In y (body a set) <-> In y set /\ ~ drops a y) ->
  forall l set y,
    In y (forEach l body set) <->
    In y set /\ ~ exists a, In a l /\ drops a y.
Proof.
  intros Hbody l. unfold forEach.
  induction l as [|a l IH]; intros set y; simpl.
  - split; [intros H; split; [exact H | intros [a [[] _]]] | tauto].
  - rewrite IH, Hbody. split.
    + intros [[H Hd] Hn]. split; [exact H |].
      intros [b [[<- | Hb] Hy]]; [tauto | apply Hn; eauto].
    + intros [H Hn]. repeat split; [exact H | |]; intros C; apply Hn; eauto.
      destruct C as [b [Hb Hy]]. eauto.
Qed.

(** A loop keeps what each round of its body keeps. *)
Lemma forEach_keeps (P : Js.StringSet -> Prop) :
  (forall a set, P set -> P (body a set)) ->
  forall l set, P set -> P (forEach l body set).
Proof.
  intros Hbody l. unfold forEach.
  induction l as [|a l IH]; intros set H; simpl; auto.
Qed.
End ForEach.

(** ** The subtags on offer *)

Lemma subtag_round_In (selected : list string) (tag : TopicTag)
    (set : Js.StringSet) (y : string) :
  In y (if Js.arrayIncludes selected (name tag) then
          match subtags tag with
          | Some sts => forEach sts (fun subtag set => Js.add set subtag) set
          | None => set
          end
        else set) <->
  In y set \/ (In (name tag) selected /\ subtagOf tag y).
Proof.
  unfold subtagOf. destruct (Js.arrayIncludes selected (name tag)) eqn:E.
  - apply arrayIncludes_In in E. destruct (subtags tag) as [sts |].
    + rewrite (forEach_grows _ (fun subtag y => y = subtag)).
      * split.
        -- intros [H | [a [Ha ->]]]; eauto.
        -- intros [H | [_ [l [[= <-] H]]]]; eauto.
      * intros a s z. apply In_add.
    + split; [auto | intros [H | [_ [l [[=] _]]]]; exact H].
  - split; [auto |].
    intros [H | [H _]]; [exact H |].
    apply arrayIncludes_In in H. congruence.
Qed.

Lemma subtag_round_NoDup (selected : list string) (tag : TopicTag)
    (set : Js.StringSet) :
  NoDup set ->
  NoDup (if Js.arrayIncludes selected (name tag) then
           match subtags tag with
           | Some sts => forEach sts (fun subtag set => Js.add set subtag) set
           | None => set
           end
         else set).
Proof.
  intros H. destruct (Js.arrayIncludes selected (name tag)); [| exact H].
  destruct (subtags tag) as [sts |]; [| exact H].
  apply forEach_keeps; [| exact H].
  intros a s. apply NoDup_add.
Qed.

(** C6: [availableSubtags] is empty when no tag is selected; otherwise it
    lists, without repetition and in ascending order of code units, exactly
    the subtags that some problem of the dataset has under a tag whose name
    is selected. *)
Theorem C6_availableSubtags (problems : list LeetCodeProblem) :
  availableSubtags problems [] = [] /\
  forall (tagName : string) (others : list string),
    let selected := tagName :: others in
    (forall subtag,
        In subtag (availableSubtags problems selected) <->
        offeredUnder problems selected subtag) /\
    StronglySorted string_lt (availableSubtags problems selected).
Proof.
  split; [reflexivity |].
  intros tagName others selected.
  unfold availableSubtags, Js.arrayFrom.
  replace (Js.size selected =? 0) with false
    by (unfold Js.size, selected; simpl; lia).
  split.
  - intros subtag. rewrite In_sort.
    rewrite (forEach_grows _ (fun problem y =>
      exists tag, tagOf problem tag /\ In (name tag) selected /\
                  subtagOf tag y)).
    + unfold offeredUnder. split.
      * intros [[] | [problem [Hp [tag H]]]]. now exists problem, tag.
      * intros [problem [tag [Hp H]]]. right. exists problem. eauto.
    + intros problem set y. unfold tagOf.
      destruct (topicTags problem) as [tags |].
      * rewrite (forEach_grows _ (fun tag y =>
          In (name tag) selected /\ subtagOf tag y)).
        -- split.
           ++ intros [H | [tag [Ht H]]]; [auto | right].
              exists tag. split; [now exists tags | exact H].
           ++ intros [Hy | [tag [[l [E Ht]] Hy]]]; [auto |].
              injection E as <-. eauto.
        -- intros tag s z. apply subtag_round_In.
      * split; [auto | intros [Hy | [tag [[l [E _]] _]]]; [exact Hy | discriminate]].
  - apply sort_strict.
    apply forEach_keeps; [| constructor].
    intros problem set H. destruct (topicTags problem) as [tags |]; [| exact H].
    apply forEach_keeps; [| exact H].
    intros tag s. apply subtag_round_NoDup.
Qed.

(** ** The filter stages *)

Lemma filter_all {A : Type} (l : list A) : filter (fun _ => true) l = l.
Proof. induction l as [|x l IH]; simpl; [reflexivity | now rewrite IH]. Qed.

Lemma filter_none {A : Type} (pred : A -> bool) (l : list A) :
  (forall x, pred x = false) -> filter pred l = [].
Proof.
  intros H. induction l as [|x l IH]; simpl; [reflexivity |].
  now rewrite H.
Qed.

Lemma filter_twice {A : Type} (f g : A -> bool) (l : list A) :
  filter g (filter f l) = filter (fun x => f x && g x) l.
Proof.
  induction l as [|x l IH]; simpl; [reflexivity |].
  destruct (f x); simpl; [destruct (g x) |]; now rewrite IH.
Qed.

Lemma deref_filterIf (cond : bool) (pred : LeetCodeProblem -> bool)
    (problems : list LeetCodeProblem) (filtered : arrayRef) :
  deref problems (filterIf cond pred problems filtered) =
  filter (fun p => implb cond (pred p)) (deref problems filtered).
Proof.
  destruct cond; simpl; [reflexivity | now rewrite filter_all].
Qed.

Section Evaluate.
Variable localeCompare : string -> string -> Q.

(** The array that [filteredAndSortedProblems] returns. *)
Lemma filteredAndSorted_result (problems : list LeetCodeProblem)
    (f : AppliedFilters) :
  fst (filteredAndSortedProblems localeCompare problems f) =
  Js.sort (compareFn localeCompare f) (filter (passes f) problems).
Proof.
  unfold filteredAndSortedProblems.
  set (r := ratingStage f problems _).
  assert (deref problems r = filter (passes f) problems) as <-.
  { unfold r, ratingStage, subtagStage, tagStage, difficultyStage,
      searchStage.
    rewrite !deref_filterIf, !filter_twice. simpl.
    apply filter_ext. intros p. unfold passes.
    now rewrite !andb_assoc. }
  destruct r; reflexivity.
Qed.

(** The dataset array as [filteredAndSortedProblems] leaves it. *)
Lemma filteredAndSorted_dataset (problems : list LeetCodeProblem)
    (f : AppliedFilters) :
  snd (filteredAndSortedProblems localeCompare problems f) =
  if filtersActive f then problems
  else Js.sort (compareFn localeCompare f) problems.
Proof.
  unfold filteredAndSortedProblems, filtersActive, ratingStage,
    subtagStage, tagStage, difficultyStage, searchStage.
  destruct (Js.truthy (Applied.searchTerm f));
    destruct (negb (String.eqb (Applied.difficulty f) "all"));
    destruct (Js.size (Applied.tags f) >? 0);
    destruct (Js.size (Applied.subtags f) >? 0);
    destruct (Js.gt (Applied.ratingMin f) (num 0) ||
              Js.lt (Applied.ratingMax f) (num 4000));
    reflexivity.
Qed.
End Evaluate.

(** ** Stage 1: search *)

Lemma searchPred_spec (f : AppliedFilters) (p : LeetCodeProblem) :
  searchPred f p = true <->
  occursInIgnoringCase (Applied.searchTerm f) (Title p) \/
  occursIn (Applied.searchTerm f) (Js.toString (ID p)).
Proof.
  unfold searchPred.
  rewrite orb_true_iff, includes_lower.
  rewrite (includes_decimal_lower _ _ (toString_decimal _)), includes_spec.
  reflexivity.
Qed.

(** C7: with a non-empty search term, the search stage keeps, in their
    order, exactly the problems whose title contains the term up to the case
    of letters or whose id in decimal contains the term; on the example
    dataset the term "sum" keeps ids 1 and 3 and drops id 2, and the whole
    evaluation, sorted by ascending rating, returns ids 1 then 3. *)
Theorem C7_search_stage :
  (forall (f : AppliedFilters) (problems : list LeetCodeProblem)
          (filtered : arrayRef),
      Applied.searchTerm f <> "" ->
      exists keep,
        deref problems (searchStage f problems filtered) =
          filter keep (deref problems filtered) /\
        forall p,
          keep p = true <->
          occursInIgnoringCase (Applied.searchTerm f) (Title p) \/
          occursIn (Applied.searchTerm f) (Js.toString (ID p))) /\
  map ID (deref Example.dataset
            (searchStage Example.searchSum Example.dataset Dataset)) = [1; 3] /\
  forall localeCompare,
    map ID (fst (filteredAndSortedProblems localeCompare Example.dataset
                   Example.searchSum)) = [1; 3].
Proof.
  split; [| split; [reflexivity | intros lc; reflexivity]].
  intros f problems filtered Hterm.
  exists (searchPred f). split; [| apply searchPred_spec].
  unfold searchStage.
  destruct (Applied.searchTerm f); [contradiction | reflexivity].
Qed.

(** ** Stage 4: subtags *)

Lemma optSome_spec {A : Type} (l : option (list A)) (pred : A -> bool) :
  optSome l pred = true <->
  exists l' x, l = Some l' /\ In x l' /\ pred x = true.
Proof.
  destruct l as [l' |]; simpl.
  - unfold some. rewrite existsb_exists. split.
    + intros [x H]. now exists l', x.
    + intros [l0 [x [[= <-] H]]]. now exists x.
  - split; [discriminate | intros [l0 [x [E _]]]; discriminate].
Qed.

Lemma subtagPred_spec (f : AppliedFilters) (p : LeetCodeProblem) :
  subtagPred f p = true <->
  exists tag subtag,
    tagOf p tag /\ subtagOf tag subtag /\ In subtag (Applied.subtags f).
Proof.
  unfold subtagPred, tagOf, subtagOf, Js.arrayFrom.
  rewrite optSome_spec. split.
  - intros [tags [tag [Ht [Hin H]]]].
    apply optSome_spec in H as [sts [subtag [Hs [Hin' H]]]].
    apply arrayIncludes_In in H.
    exists tag, subtag. eauto 10.
  - intros [tag [subtag [[tags [Ht Hin]] [[sts [Hs Hin']] H]]]].
    exists tags, tag. repeat split; [assumption .. |].
    apply optSome_spec. exists sts, subtag.
    repeat split; [assumption .. |]. now apply arrayIncludes_In.
Qed.

(** C8: with no subtag selected the subtag stage keeps everything; with
    some selected it keeps, in their order, exactly the problems that have a
    tag with a selected subtag, and the selected tags play no part in it. *)
Theorem C8_subtag_stage (f : AppliedFilters)
    (problems : list LeetCodeProblem) (filtered : arrayRef) :
  (Applied.subtags f = [] -> subtagStage f problems filtered = filtered) /\
  (Applied.subtags f <> [] ->
   exists keep,
     deref problems (subtagStage f problems filtered) =
       filter keep (deref problems filtered) /\
     forall p,
       keep p = true <->
       exists tag subtag,
         tagOf p tag /\ subtagOf tag subtag /\
         In subtag (Applied.subtags f)) /\
  (forall selectedTags,
     subtagStage (Applied.withTags selectedTags f) problems filtered =
     subtagStage f problems filtered).
Proof.
  split; [| split].
  - intros H. unfold subtagStage. now rewrite H.
  - intros H. exists (subtagPred f). split; [| apply subtagPred_spec].
    unfold subtagStage. destruct (Applied.subtags f); [contradiction |].
    reflexivity.
  - reflexivity.
Qed.

(** ** Stage 5: rating range *)

Lemma ratingGuard_spec (f : AppliedFilters) :
  Js.gt (Applied.ratingMin f) (num 0) ||
  Js.lt (Applied.ratingMax f) (num 4000) = true <-> ratingStageRuns f.
Proof.
  unfold ratingStageRuns, Js.lt, Js.gt, num, inject_Z.
  rewrite orb_true_iff. split.
  - intros [H | H]; [left | right].
    + destruct (Applied.ratingMin f) as [| lo]; [discriminate |].
      exists lo. split; [reflexivity |].
      apply negb_true_iff in H. apply Qnot_le_lt. intros C.
      apply Qle_bool_iff in C. congruence.
    + destruct (Applied.ratingMax f) as [| hi]; [discriminate |].
      exists hi. split; [reflexivity |].
      apply negb_true_iff in H. apply Qnot_le_lt. intros C.
      apply Qle_bool_iff in C. congruence.
  - intros [[lo [-> H]] | [hi [-> H]]]; [left | right];
      apply negb_true_iff; apply not_true_is_false; intros C;
      apply Qle_bool_iff in C; apply Qlt_not_le in H; contradiction.
Qed.

Lemma ratingPred_spec (f : AppliedFilters) (p : LeetCodeProblem) :
  ratingPred f p = true <-> ratingInRange f p.
Proof.
  unfold ratingPred, ratingInRange, Js.le, Js.ge.
  destruct (Applied.ratingMin f) as [| lo].
  - split; [discriminate | intros [lo [hi [E _]]]; discriminate].
  - destruct (Applied.ratingMax f) as [| hi].
    + rewrite andb_false_r.
      split; [discriminate | intros [lo' [hi' [_ [E _]]]]; discriminate].
    + rewrite andb_true_iff, !Qle_bool_iff. split.
      * intros [H1 H2]. now exists lo, hi.
      * intros [lo' [hi' [[= <-] [[= <-] H]]]]. exact H.
Qed.

(** C4, as the code has it: the rating stage runs if and only if
    [ratingMin > 0] or [ratingMax < 4000]; when it runs it keeps, in their
    order, exactly the problems whose rating lies between the two bounds,
    both included, and otherwise it leaves the sequence as it is. *)
Theorem C4_rating_stage (f : AppliedFilters)
    (problems : list LeetCodeProblem) (filtered : arrayRef) :
  (ratingStageRuns f ->
   exists keep,
     deref problems (ratingStage f problems filtered) =
       filter keep (deref problems filtered) /\
     forall p, keep p = true <-> ratingInRange f p) /\
  (~ ratingStageRuns f -> ratingStage f problems filtered = filtered).
Proof.
  unfold ratingStage. split; intros H.
  - apply ratingGuard_spec in H. rewrite H.
    exists (ratingPred f). split; [reflexivity | apply ratingPred_spec].
  - destruct (Js.gt (Applied.ratingMin f) (num 0) ||
              Js.lt (Applied.ratingMax f) (num 4000)) eqn:E;
      [| reflexivity].
    apply ratingGuard_spec in E. contradiction.
Qed.

(** ** Pagination *)

Lemma ceil_quotient (a : Z) :
  Js.ceil (inject_Z a / inject_Z pageSize) = - (- a / 50).
Proof.
  unfold Js.ceil, Qceiling, Qfloor, Qdiv, Qmult, Qinv, Qopp, inject_Z, pageSize.
  cbn [Qnum Qden Pos.mul]. now rewrite Z.mul_1_r.
Qed.

Lemma totalPages_spec (l : list LeetCodeProblem) :
  let len := Z.of_nat (List.length l) in
  len <= 50 * totalPages l < len + 50.
Proof.
  intros len. unfold totalPages. rewrite ceil_quotient. fold len.
  pose proof (Z.div_mod (- len) 50 ltac:(lia)) as E.
  pose proof (Z.mod_pos_bound (- len) 50 ltac:(lia)) as B.
  lia.
Qed.

Lemma firstn_plus {A : Type} (a b : nat) (l : list A) :
  firstn (a + b) l = (firstn a l ++ firstn b (skipn a l))%list.
Proof.
  revert l; induction a as [|a IH]; intros [|x l]; simpl;
    try reflexivity.
  - now rewrite firstn_nil.
  - now rewrite IH.
Qed.

Lemma concat_chunks {A : Type} (k n : nat) (l : list A) :
  List.concat (map (fun i => firstn k (skipn (k * i) l)) (seq 0 n)) =
  firstn (k * n) l.
Proof.
  induction n as [|n IH].
  - rewrite Nat.mul_0_r. reflexivity.
  - rewrite seq_S, map_app, concat_app, IH. simpl.
    rewrite app_nil_r.
    replace (k * S n)%nat with (k * n + k)%nat by lia.
    now rewrite firstn_plus.
Qed.

Lemma paginated_chunk (l : list LeetCodeProblem) (page : Z) :
  1 <= page ->
  paginatedProblems l page =
  firstn 50 (skipn (50 * (Z.to_nat page - 1)) l).
Proof.
  intros Hpage. unfold paginatedProblems, Js.slice, pageSize.
  set (len := Z.of_nat (List.length l)).
  set (start := (page - 1) * 50).
  replace (start <? 0) with false by lia.
  replace (start + 50 <? 0) with false by lia.
  replace (50 * (Z.to_nat page - 1))%nat with (Z.to_nat start) by lia.
  destruct (Z.le_gt_cases start len) as [H | H].
  - rewrite (Z.min_l start len H).
    rewrite <- (firstn_all (skipn (Z.to_nat start) l)) at 2.
    rewrite firstn_firstn, length_skipn. f_equal. lia.
  - rewrite (Z.min_r start len) by lia.
    rewrite !skipn_all2 by lia. now rewrite !firstn_nil.
Qed.

Lemma paginated_length (l : list LeetCodeProblem) (page : Z) :
  Z.of_nat (List.length (paginatedProblems l page)) <= 50.
Proof.
  unfold paginatedProblems, Js.slice, pageSize.
  rewrite length_firstn, length_skipn.
  set (len := Z.of_nat (List.length l)).
  destruct ((page - 1) * 50 <? 0) eqn:E1;
    destruct ((page - 1) * 50 + 50 <? 0) eqn:E2; lia.
Qed.

Lemma paginated_full (l : list LeetCodeProblem) (page : Z) :
  1 <= page < totalPages l ->
  List.length (paginatedProblems l page) = 50%nat.
Proof.
  intros H. pose proof (totalPages_spec l) as T. cbv zeta in T.
  rewrite paginated_chunk by lia.
  rewrite length_firstn, length_skipn. lia.
Qed.

Lemma paginated_concat (l : list LeetCodeProblem) :
  List.concat (map (paginatedProblems l) (pageNumbers (totalPages l))) = l.
Proof.
  pose proof (totalPages_spec l) as T. cbv zeta in T.
  unfold pageNumbers. rewrite map_map.
  rewrite <- seq_shift, map_map.
  rewrite (map_ext_in _ (fun i => firstn 50 (skipn (50 * i) l))).
  - rewrite concat_chunks. apply firstn_all2. lia.
  - intros i _. rewrite paginated_chunk by lia. do 2 f_equal. lia.
Qed.

Lemma totalPages_nonneg (l : list LeetCodeProblem) : 0 <= totalPages l.
Proof. pose proof (totalPages_spec l) as T. cbv zeta in T. lia. Qed.

Lemma length_concat_sum {A : Type} (ls : list (list A)) :
  List.length (List.concat ls) = list_sum (map (@List.length A) ls).
Proof.
  induction ls as [|l ls IH]; simpl; [reflexivity |].
  now rewrite length_app, IH.
Qed.

(** C9: the pages of the filtered and sorted sequence hold at most 50
    items each, exactly 50 before the last one, put end to end they give
    the sequence back, so their lengths add up to [totalCount], and
    [totalPages] is the ceiling of [totalCount / 50]. *)
Theorem C9_pagination (localeCompare : string -> string -> Q)
    (problems : list LeetCodeProblem) (f : AppliedFilters) :
  let result := fst (filteredAndSortedProblems localeCompare problems f) in
  let totalCount := Z.of_nat (List.length result) in
  let pages := map (paginatedProblems result) (pageNumbers (totalPages result)) in
  (totalCount <= 50 * totalPages result < totalCount + 50) /\
  (forall page, Z.of_nat (List.length (paginatedProblems result page)) <= 50) /\
  (forall page,
      1 <= page < totalPages result ->
      List.length (paginatedProblems result page) = 50%nat) /\
  List.concat pages = result /\
  Z.of_nat (list_sum (map (@List.length _) pages)) = totalCount.
Proof.
  intros result totalCount pages.
  split; [apply totalPages_spec |].
  split; [apply paginated_length |].
  split; [apply paginated_full |].
  split; [apply paginated_concat |].
  unfold totalCount. rewrite <- length_concat_sum. f_equal.
  f_equal. apply paginated_concat.
Qed.

(** ** A range with its bounds the wrong way round *)

Lemma degenerate_runs (f : AppliedFilters) (lo hi : Q) :
  Applied.ratingMin f = Js.Num lo -> Applied.ratingMax f = Js.Num hi ->
  (hi < lo)%Q -> ratingStageRuns f.
Proof.
  intros Hlo Hhi H.
  destruct (Qlt_le_dec 0 lo) as [L | L].
  - left. now exists lo.
  - right. exists hi. split; [assumption | lra].
Qed.

Lemma degenerate_passes (f : AppliedFilters) (lo hi : Q) :
  Applied.ratingMin f = Js.Num lo -> Applied.ratingMax f = Js.Num hi ->
  (hi < lo)%Q -> forall p, passes f p = false.
Proof.
  intros Hlo Hhi H p. unfold passes.
  pose proof (degenerate_runs f lo hi Hlo Hhi H) as R.
  apply ratingGuard_spec in R. rewrite R. simpl.
  destruct (ratingPred f p) eqn:E; [| apply andb_false_r].
  apply ratingPred_spec in E as [lo' [hi' [E1 [E2 [H1 H2]]]]].
  rewrite Hlo in E1. rewrite Hhi in E2.
  injection E1 as <-. injection E2 as <-. lra.
Qed.

(** C5: when [ratingMin] is above [ratingMax], the evaluation returns the
    empty sequence: [totalCount] is 0, there is no page, and every page
    slice is empty. *)
Theorem C5_degenerate_range (localeCompare : string -> string -> Q)
    (problems : list LeetCodeProblem) (f : AppliedFilters) (lo hi : Q) :
  Applied.ratingMin f = Js.Num lo ->
  Applied.ratingMax f = Js.Num hi ->
  (hi < lo)%Q ->
  let result := fst (filteredAndSortedProblems localeCompare problems f) in
  result = [] /\
  Z.of_nat (List.length result) = 0 /\
  totalPages result = 0 /\
  forall page, paginatedProblems result page = [].
Proof.
  intros Hlo Hhi H result.
  assert (result = []) as ->.
  { unfold result. rewrite filteredAndSorted_result.
    rewrite (filter_none _ _ (degenerate_passes f lo hi Hlo Hhi H)).
    reflexivity. }
  repeat split.
  intros page. unfold paginatedProblems, Js.slice.
  now rewrite skipn_nil, firstn_nil.
Qed.

(** ** Deselecting a tag *)

Lemma purge_round_In (tagName : string) (problem : LeetCodeProblem)
    (set : Js.StringSet) (y : string) :
  In y (match topicTags problem with
        | Some tags =>
            match arrayFind tags (fun t => String.eqb (name t) tagName) with
            | Some tag =>
                match subtags tag with
                | Some sts =>
                    forEach sts (fun subtag set => Js.delete set subtag) set
                | None => set
                end
            | None => set
            end
        | None => set
        end) <->
  In y set /\
  ~ (exists tag, firstTagNamed problem tagName tag /\ subtagOf tag y).
Proof.
  unfold firstTagNamed, subtagOf.
  destruct (topicTags problem) as [tags |].
  - destruct (arrayFind tags _) as [tag |] eqn:F.
    + destruct (subtags tag) as [sts |] eqn:S.
      * rewrite (forEach_shrinks _ (fun subtag y => y = subtag)).
        -- split; intros [H N]; (split; [exact H |]); intros C; apply N.
           ++ destruct C as [tag' [[tags' [E F']] [sts' [S' Hy]]]].
              injection E as <-. rewrite F in F'. injection F' as <-.
              rewrite S in S'. injection S' as <-. eauto.
           ++ destruct C as [a [Ha ->]]. exists tag. split; eauto.
        -- intros a s z. apply In_delete.
      * split; [| tauto]. intros H. split; [exact H |].
        intros [tag' [[tags' [E F']] [sts' [S' _]]]].
        injection E as <-. rewrite F in F'. injection F' as <-. congruence.
    + split; [| tauto]. intros H. split; [exact H |].
      intros [tag' [[tags' [E F']] _]].
      injection E as <-. congruence.
  - split; [| tauto]. intros H. split; [exact H |].
    intros [tag' [[tags' [E _]] _]]. discriminate.
Qed.

(** C1, as the code has it: deselecting a selected tag with [toggleTag]
    removes that tag from the selection, and removes from the selected
    subtags exactly those that some problem lists under its tag of that
    name, whether or not another tag lists them too. *)
Theorem C1_toggleTag_deselect (problems : list LeetCodeProblem)
    (tagName : string) (prev : PendingFilters) :
  In tagName (Pending.selectedTags prev) ->
  let next := toggleTag problems tagName prev in
  (forall t,
      In t (Pending.selectedTags next) <->
      In t (Pending.selectedTags prev) /\ t <> tagName) /\
  (forall subtag,
      In subtag (Pending.selectedSubtags next) <->
      In subtag (Pending.selectedSubtags prev) /\
      ~ listedUnder problems tagName subtag).
Proof.
  intros Hsel next. unfold next, toggleTag.
  replace (Js.has (Js.newSet (Pending.selectedTags prev)) tagName) with true
    by (symmetry; apply has_In, In_newSet, Hsel).
  simpl. split.
  - intros t. now rewrite In_delete, In_newSet.
  - intros subtag.
    rewrite (forEach_shrinks _ (fun problem y =>
      exists tag, firstTagNamed problem tagName tag /\ subtagOf tag y)).
    + rewrite In_newSet. unfold listedUnder.
      split; intros [H N]; (split; [exact H |]); intros C; apply N.
      * destruct C as [problem [tag [Hp H']]]. exists problem. eauto.
      * destruct C as [problem [Hp [tag H']]]. exists problem, tag. tauto.
    + intros problem set y. apply purge_round_In.
Qed.

(** Removing a tag through its badge leaves the selected subtags as they
    are. *)
Lemma removeAppliedFilter_tag_subtags (tagName : string)
    (a : AppliedFilters) (p : PendingFilters) :
  let (newApplied, newPending) :=
    removeAppliedFilter "tag" (Some tagName) a p in
  Applied.subtags newApplied = Applied.subtags a /\
  Pending.selectedSubtags newPending = Pending.selectedSubtags p.
Proof.
  unfold removeAppliedFilter. simpl.
  destruct (Js.truthy tagName); simpl; auto.
Qed.

(** ** Committing the pending filters *)

Lemma parseBound_empty (fallback : Z) :
  parseBound "" fallback = num fallback.
Proof. reflexivity. Qed.

(** ** The page number *)

Section Session.
Variable localeCompare : string -> string -> Q.

Lemma render_currentPage (s : State) (applied : AppliedFilters)
    (pending : PendingFilters) (page : Z) :
  currentPage (render localeCompare s applied pending page) = page.
Proof.
  unfold render.
  now destruct (filteredAndSortedProblems localeCompare (problems s) applied).
Qed.

Lemma first_page_in_range (s : State) :
  currentPage s = 1 -> pageInRange s.
Proof.
  intros H. unfold pageInRange. rewrite H.
  pose proof (totalPages_nonneg (filteredAndSorted s)). lia.
Qed.

Lemma handle_pageInRange (s : State) (e : Event) :
  pageInRange s -> offered s e = true ->
  pageInRange (handle localeCompare s e).
Proof.
  intros Hs He.
  destruct e; simpl in *;
    try (apply first_page_in_range, render_currentPage);
    try exact Hs.
  - destruct (removeAppliedFilter type value (appliedFilters s)
                (pendingFilters s)) as [newApplied newPending].
    apply first_page_in_range, render_currentPage.
  - unfold pageInRange in *. simpl. lia.
  - unfold pageInRange in *. simpl. lia.
Qed.

Lemma reachable_pageInRange (dataset : list LeetCodeProblem) (s : State) :
  reachable localeCompare dataset s -> pageInRange s.
Proof.
  induction 1 as [| applied pending | s e Hs IH He].
  - apply first_page_in_range, render_currentPage.
  - apply first_page_in_range, render_currentPage.
  - now apply handle_pageInRange.
Qed.

Lemma dataset_permuted (problems : list LeetCodeProblem)
    (f : AppliedFilters) :
  Permutation (snd (filteredAndSortedProblems localeCompare problems f))
    problems.
Proof.
  rewrite filteredAndSorted_dataset.
  destruct (filtersActive f); [reflexivity | apply sort_perm].
Qed.

Lemma memoCurrent_problems (dataset : list LeetCodeProblem) (s : State) :
  memoCurrent localeCompare dataset s -> Permutation (problems s) dataset.
Proof.
  intros [before [Hperm E]].
  rewrite <- Hperm.
  replace (problems s)
    with (snd (filteredAndSortedProblems localeCompare before
                 (appliedFilters s)))
    by now rewrite E.
  apply dataset_permuted.
Qed.

Lemma render_memoCurrent (dataset : list LeetCodeProblem) (s : State)
    (applied : AppliedFilters) (pending : PendingFilters) (page : Z) :
  Permutation (problems s) dataset ->
  memoCurrent localeCompare dataset
    (render localeCompare s applied pending page).
Proof.
  intros Hperm. exists (problems s). split; [exact Hperm |].
  unfold render.
  destruct (filteredAndSortedProblems localeCompare (problems s) applied)
    as [result problems'] eqn:E.
  exact E.
Qed.

Lemma handle_memoCurrent (dataset : list LeetCodeProblem) (s : State)
    (e : Event) :
  memoCurrent localeCompare dataset s ->
  memoCurrent localeCompare dataset (handle localeCompare s e).
Proof.
  intros Hs. pose proof (memoCurrent_problems dataset s Hs) as Hperm.
  destruct e; simpl; try (now apply render_memoCurrent); try exact Hs.
  destruct (removeAppliedFilter type value (appliedFilters s)
              (pendingFilters s)) as [newApplied newPending].
  now apply render_memoCurrent.
Qed.

Lemma reachable_memoCurrent (dataset : list LeetCodeProblem) (s : State) :
  reachable localeCompare dataset s -> memoCurrent localeCompare dataset s.
Proof.
  induction 1 as [| applied pending | s e Hs IH He].
  - now apply render_memoCurrent.
  - apply render_memoCurrent.
    apply memoCurrent_problems. now apply render_memoCurrent.
  - now apply handle_memoCurrent.
Qed.

End Session.

(** C10: in every state of a session the page number lies between 1 and
    [totalPages], or is 1 when the result is empty, where [totalPages]
    counts the pages of the evaluation of the current applied filters;
    applying the filters, clearing them and removing one of them all set the
    page number to 1. *)
Theorem C10_page_in_range (localeCompare : string -> string -> Q) :
  (forall dataset s,
      reachable localeCompare dataset s ->
      pageInRange s /\ memoCurrent localeCompare dataset s) /\
  (forall s, currentPage (handle localeCompare s ApplyFilters) = 1) /\
  (forall s, currentPage (handle localeCompare s ClearAllFilters) = 1) /\
  (forall s type value,
      currentPage (handle localeCompare s (RemoveAppliedFilter type value))
      = 1).
Proof.
  split.
  { intros dataset s H. split;
      [eapply reachable_pageInRange | apply reachable_memoCurrent]; exact H. }
  split; [intros s; apply render_currentPage |].
  split; [intros s; apply render_currentPage |].
  intros s type value. simpl.
  destruct (removeAppliedFilter type value (appliedFilters s)
              (pendingFilters s)) as [newApplied newPending].
  apply render_currentPage.
Qed.

(** ** The properties on concrete inputs *)

(** With A and B selected and x, y, z selected, A is selected, and after
    deselecting it z is selected exactly because it was and A does not list
    it. *)
Lemma C1_toggleTag_deselect_witness :
  In "A" (Pending.selectedTags Example.bothSelected) /\
  (In "z" (Pending.selectedSubtags
             (toggleTag Example.twoTags "A" Example.bothSelected)) <->
   In "z" (Pending.selectedSubtags Example.bothSelected) /\
   ~ listedUnder Example.twoTags "A" "z").
Proof.
  assert (In "A" (Pending.selectedTags Example.bothSelected)) as H
    by (simpl; auto).
  split; [exact H |].
  apply (C1_toggleTag_deselect Example.twoTags "A" Example.bothSelected H).
Defined.

(** The subtag y is selected and is listed under B as well as under A, yet
    deselecting A removes it: only z stays selected. *)
Lemma C1_shared_subtag_removed :
  In "y" (Pending.selectedSubtags Example.bothSelected) /\
  ~ Claimed.onlyUnder Example.twoTags "A" "y" /\
  ~ In "y" (Pending.selectedSubtags
              (toggleTag Example.twoTags "A" Example.bothSelected)) /\
  Pending.selectedSubtags
    (toggleTag Example.twoTags "A" Example.bothSelected) = ["z"].
Proof.
  split; [simpl; auto |].
  split; [| split; [| reflexivity]].
  - intros [_ H]. apply H.
    exists (Example.problem 2 "Second" 1100 None [Example.tagB]), Example.tagB.
    split; [simpl; auto |].
    split; [exists [Example.tagB]; simpl; auto |].
    split; [discriminate |].
    exists ["y"; "z"]. simpl. auto.
  - vm_compute. intros [H | []]. discriminate.
Qed.

(** The bounds (0, 5000) are not the default ones, yet the rating stage of
    the code does not run on them and keeps a problem rated 6000. *)
Lemma C4_stage_skipped_on_wide_bounds :
  Claimed.boundsAreDefault Example.wideBounds = false /\
  deref [Example.outlier]
    (ratingStage Example.wideBounds [Example.outlier] Dataset)
    = [Example.outlier] /\
  deref [Example.outlier]
    (Claimed.ratingStage Example.wideBounds [Example.outlier] Dataset)
    = [].
Proof. repeat split. Qed.

Lemma C4_rating_stage_witness :
  exists keep,
    deref Example.dataset
      (ratingStage Example.upTo3000 Example.dataset Dataset) =
      filter keep Example.dataset /\
    forall p, keep p = true <-> ratingInRange Example.upTo3000 p.
Proof.
  apply (C4_rating_stage Example.upTo3000 Example.dataset Dataset).
  right. exists (inject_Z 3000). split; reflexivity.
Defined.

Lemma C5_degenerate_range_witness :
  fst (filteredAndSortedProblems Example.localeCompare Example.dataset
         Example.degenerate) = [].
Proof.
  apply (C5_degenerate_range Example.localeCompare Example.dataset
           Example.degenerate (inject_Z 3000) (inject_Z 1000));
    reflexivity.
Defined.

Lemma C7_search_stage_witness :
  exists keep,
    deref Example.dataset
      (searchStage Example.searchSum Example.dataset Dataset) =
      filter keep Example.dataset /\
    forall p,
      keep p = true <->
      occursInIgnoringCase "sum" (Title p) \/
      occursIn "sum" (Js.toString (ID p)).
Proof.
  apply (proj1 C7_search_stage Example.searchSum Example.dataset Dataset).
  simpl. discriminate.
Defined.

Lemma C8_subtag_stage_witness :
  exists keep,
    deref Example.dataset
      (subtagStage Example.selectedPrefixSum Example.dataset Dataset) =
      filter keep Example.dataset /\
    forall p,
      keep p = true <->
      exists tag subtag,
        tagOf p tag /\ subtagOf tag subtag /\ In subtag ["Prefix Sum"].
Proof.
  apply (C8_subtag_stage Example.selectedPrefixSum Example.dataset Dataset).
  simpl. discriminate.
Defined.

(** 120 problems fill pages of 50, 50 and 20. *)
Lemma C9_pagination_witness :
  List.length
    (paginatedProblems
       (fst (filteredAndSortedProblems Example.localeCompare
               (Example.numbered 120) defaultApplied)) 2) = 50%nat.
Proof.
  apply (C9_pagination Example.localeCompare (Example.numbered 120)
           defaultApplied).
  vm_compute. split; [discriminate | reflexivity].
Defined.

(** On 60 problems the session that starts and asks for the next page is
    on a page in range. *)
Lemma C10_page_in_range_witness :
  pageInRange
    (handle Example.localeCompare
       (initialState Example.localeCompare (Example.numbered 60)) NextPage).
Proof.
  apply (proj1 (C10_page_in_range Example.localeCompare)
           (Example.numbered 60)).
  apply reachable_step; [apply reachable_initial | vm_compute; reflexivity].
Defined.

(** C2, at the input where the code departs from it: the text "abc" typed
    as lower bound is committed as [NaN], not as 0, and with an upper bound
    of 3000 the evaluation then drops a problem rated 1200 that the range
    0 to 3000 keeps. *)
Theorem C2_unparseable_bound_is_NaN
    (localeCompare : string -> string -> Q) :
  Applied.ratingMin (applyFilters Example.typedAbc) = Js.NaN /\
  Applied.ratingMax (applyFilters Example.typedAbc) = num 3000 /\
  fst (filteredAndSortedProblems localeCompare [Example.twoSum]
         (applyFilters Example.typedAbc)) = [] /\
  fst (filteredAndSortedProblems localeCompare [Example.twoSum]
         Example.upTo3000) = [Example.twoSum].
Proof. repeat split. Qed.

(** C3, at the input where the code departs from it: with no filter
    active the sort runs on the dataset array itself, and the evaluation
    leaves the example dataset in ascending order of rating. *)
Theorem C3_default_sort_reorders_dataset
    (localeCompare : string -> string -> Q) :
  snd (filteredAndSortedProblems localeCompare Example.dataset
         defaultApplied)
    = [Example.twoSum; Example.sumTree; Example.add] /\
  snd (filteredAndSortedProblems localeCompare Example.dataset
         defaultApplied) <> Example.dataset.
Proof.
  split; [reflexivity |].
  intros H. vm_compute in H. discriminate.
Qed.

End IndexFacts.

(* ================================================================== *)
(** * More facts about the built-ins and the route *)
(* ================================================================== *)

Module ExtraFacts.

Import Types Index Props MoreProps JsFacts IndexFacts.

(** ** Reading back the decimal rendering of an integer *)

Ltac each_digit c :=
  destruct c as [[] [] [] [] [] [] [] []];
  try (intros H; discriminate H); intros _.

Lemma digit_not_white (c : ascii) (r : string) :
  decimalDigit c = true -> Js.trimStart (String c r) = String c r.
Proof. each_digit c; reflexivity. Qed.

Lemma digit_no_sign (c : ascii) (r : string) :
  decimalDigit c = true -> Js.strip_sign (String c r) = (1, String c r).
Proof. each_digit c; reflexivity. Qed.

Lemma digits_no_radix (s : string) :
  allUnits decimalDigit s = true -> Js.strip_radix s = (10, s).
Proof.
  destruct s as [|c [|c' r]]; [reflexivity | |].
  - simpl. rewrite andb_true_r. each_digit c; reflexivity.
  - simpl. rewrite andb_true_iff. intros [_ H]. revert H.
    rewrite andb_true_iff. intros [H _]. revert H.
    each_digit c'; destruct c as [[] [] [] [] [] [] [] []]; reflexivity.
Qed.

Lemma numeral_digits (d : Decimal.uint) :
  allUnits decimalDigit (NilEmpty.string_of_uint d) = true.
Proof. induction d; simpl; auto. Qed.

Lemma parse_digits_numeral (d : Decimal.uint) (acc : Z) :
  Js.parse_digits 10 (NilEmpty.string_of_uint d) (Some acc) =
  Some (digitsValue d acc).
Proof.
  revert acc; induction d; intros acc; simpl; try reflexivity; apply IHd.
Qed.

Lemma parse_digits_first (d : Decimal.uint) :
  d <> Decimal.Nil ->
  Js.parse_digits 10 (NilEmpty.string_of_uint d) None =
  Some (digitsValue d 0).
Proof.
  destruct d; intros H; [contradiction | ..]; simpl;
    apply parse_digits_numeral.
Qed.

Lemma of_uint_acc_value (d : Decimal.uint) (acc : positive) :
  Z.pos (Pos.of_uint_acc d acc) = digitsValue d (Z.pos acc).
Proof.
  revert acc; induction d; intros acc; cbn [Pos.of_uint_acc digitsValue];
    try reflexivity; rewrite IHd; f_equal; lia.
Qed.

Lemma of_uint_value (d : Decimal.uint) :
  Z.of_uint d = digitsValue d 0.
Proof.
  unfold Z.of_uint.
  induction d; cbn [Pos.of_uint digitsValue Z.of_N]; try reflexivity;
    try (rewrite of_uint_acc_value; reflexivity).
  exact IHd.
Qed.

Lemma parseInt_numeral (d : Decimal.uint) :
  Js.parseInt (NilZero.string_of_uint d) = num (digitsValue d 0) /\
  Js.parseInt (String "-" (NilZero.string_of_uint d)) =
    num (- digitsValue d 0).
Proof.
  destruct (Decimal.uint_eq_dec d Decimal.Nil) as [-> | Hd];
    [split; reflexivity |].
  assert (NilZero.string_of_uint d = NilEmpty.string_of_uint d) as ->
    by (destruct d; [contradiction | reflexivity ..]).
  pose proof (numeral_digits d) as Hall.
  pose proof (parse_digits_first d Hd) as Hparse.
  destruct (NilEmpty.string_of_uint d) as [|c r] eqn:E;
    [destruct d; [contradiction | discriminate ..] |].
  assert (decimalDigit c = true) as Hc
    by (simpl in Hall; apply andb_true_iff in Hall; tauto).
  unfold Js.parseInt, num. split.
  - rewrite (digit_not_white c r Hc), (digit_no_sign c r Hc).
    cbv beta iota.
    rewrite (digits_no_radix _ Hall), Hparse.
    do 2 f_equal; lia.
  - change (Js.trimStart (String "-" (String c r)))
      with (String "-" (String c r)).
    change (Js.strip_sign (String "-" (String c r)))
      with (-1, String c r).
    cbv beta iota.
    rewrite (digits_no_radix _ Hall), Hparse.
    do 2 f_equal; lia.
Qed.

(** [parseInt] reads the decimal rendering of an integer back. *)
Lemma parseInt_toString (z : Z) :
  Js.parseInt (Js.toString z) = num z.
Proof.
  unfold Js.toString.
  rewrite <- (DecimalZ.of_to z) at 2.
  destruct (Z.to_int z) as [d | d]; simpl NilZero.string_of_int;
    simpl Z.of_int; rewrite of_uint_value; apply parseInt_numeral.
Qed.

Lemma toString_truthy (z : Z) : Js.truthy (Js.toString z) = true.
Proof.
  unfold Js.toString.
  destruct (Z.to_int z) as [d | d]; [| reflexivity].
  destruct d; reflexivity.
Qed.

(** ** Sets without repetition *)

Lemma fold_add_fresh (l : list string) (acc : Js.StringSet) :
  NoDup (acc ++ l) -> fold_left Js.add l acc = (acc ++ l)%list.
Proof.
  revert acc; induction l as [|x l IH]; intros acc H; simpl.
  - now rewrite app_nil_r.
  - assert (Js.has acc x = false) as Hx.
    { destruct (Js.has acc x) eqn:E; [| reflexivity].
      apply has_In in E. apply NoDup_remove_2 in H.
      exfalso. apply H. apply in_or_app. now left. }
    unfold Js.add at 2. rewrite Hx.
    rewrite IH; rewrite <- app_assoc; [reflexivity | exact H].
Qed.

Lemma newSet_NoDup_id (l : list string) : NoDup l -> Js.newSet l = l.
Proof. intros H. unfold Js.newSet. now rewrite fold_add_fresh. Qed.

Lemma NoDup_newSet (l : list string) : NoDup (Js.newSet l).
Proof. apply NoDup_fold_add. constructor. Qed.

Lemma newSet_newSet (l : list string) :
  Js.newSet (Js.newSet l) = Js.newSet l.
Proof. apply newSet_NoDup_id, NoDup_newSet. Qed.

(** ** The tags of the dataset *)

(** [allTags] lists, without repetition and in ascending order of code
    units, exactly the names of the tags that the problems of the dataset
    carry; problems without [topicTags] add nothing. *)
Theorem allTags_spec (problems : list LeetCodeProblem) :
  (forall tagName,
      In tagName (allTags problems) <-> tagNameIn problems tagName) /\
  StronglySorted string_lt (allTags problems).
Proof.
  unfold allTags, Js.arrayFrom. split.
  - intros tagName. rewrite In_sort.
    rewrite (forEach_grows _ (fun problem y =>
      exists tag, tagOf problem tag /\ name tag = y)).
    + unfold tagNameIn. split.
      * intros [[] | [problem [Hp [tag H]]]]. now exists problem, tag.
      * intros [problem [tag [Hp H]]]. right. exists problem. eauto.
    + intros problem set y. unfold tagOf.
      destruct (topicTags problem) as [tags |].
      * rewrite (forEach_grows _ (fun tag y => name tag = y)).
        -- split.
           ++ intros [H | [tag [Ht H]]]; [auto | right].
              exists tag. split; [now exists tags | exact H].
           ++ intros [Hy | [tag [[l [E Ht]] Hy]]]; [auto |].
              injection E as <-. eauto.
        -- intros tag s z. rewrite In_add. intuition.
      * split; [auto |].
        intros [Hy | [tag [[l [E _]] _]]]; [exact Hy | discriminate].
  - apply sort_strict.
    apply forEach_keeps; [| constructor].
    intros problem set H. destruct (topicTags problem) as [tags |]; [| exact H].
    apply forEach_keeps; [| exact H].
    intros tag s. apply NoDup_add.
Qed.

(** ** Stage 2: difficulty *)

Lemma difficultyPred_spec (f : AppliedFilters) (p : LeetCodeProblem) :
  difficultyPred f p = true <->
  View.shownDifficulty p = Applied.difficulty f.
Proof. unfold difficultyPred, View.shownDifficulty. apply String.eqb_eq. Qed.

(** The difficulty stage leaves the sequence alone for the selector "all";
    for another selector it keeps, in their order, exactly the problems
    whose row shows that difficulty, so that a problem without details
    counts as "Hard" and a selector that names no difficulty keeps
    nothing. *)
Theorem difficulty_stage (f : AppliedFilters)
    (problems : list LeetCodeProblem) (filtered : arrayRef) :
  (Applied.difficulty f = "all" ->
   difficultyStage f problems filtered = filtered) /\
  (Applied.difficulty f <> "all" ->
   exists keep,
     deref problems (difficultyStage f problems filtered) =
       filter keep (deref problems filtered) /\
     (forall p,
         keep p = true <->
         View.shownDifficulty p = Applied.difficulty f) /\
     (forall p,
         problemDetails p = None ->
         (keep p = true <-> Applied.difficulty f = "Hard")) /\
     (Applied.difficulty f <> "Easy" ->
      Applied.difficulty f <> "Medium" ->
      Applied.difficulty f <> "Hard" ->
      deref problems (difficultyStage f problems filtered) = [])).
Proof.
  unfold difficultyStage. split; intros H.
  - now rewrite H.
  - apply String.eqb_neq in H. rewrite H. simpl.
    exists (difficultyPred f).
    split; [reflexivity |].
    split; [apply difficultyPred_spec |].
    split.
    + intros p Hp. rewrite difficultyPred_spec.
      unfold View.shownDifficulty. rewrite Hp. split; congruence.
    + intros H1 H2 H3. apply filter_none. intros p.
      destruct (difficultyPred f p) eqn:E; [| reflexivity].
      apply difficultyPred_spec in E. unfold View.shownDifficulty in E.
      destruct (problemDetails p) as [d |]; [destruct (difficulty d) |];
        simpl in E; congruence.
Qed.

(** ** Stage 3: tags *)

Lemma tagPred_spec (f : AppliedFilters) (p : LeetCodeProblem) :
  tagPred f p = true <-> hasSelectedTag f p.
Proof.
  unfold tagPred, hasSelectedTag, tagOf, Js.arrayFrom.
  rewrite optSome_spec. split.
  - intros [tags [tag [Ht [Hin H]]]]. apply arrayIncludes_In in H.
    exists tag. eauto.
  - intros [tag [[tags [Ht Hin]] H]].
    exists tags, tag. repeat split; [assumption .. |].
    now apply arrayIncludes_In.
Qed.

(** With no tag selected the tag stage keeps everything; with some
    selected it keeps, in their order, exactly the problems that carry at
    least one selected tag, and so drops every problem without
    [topicTags]. *)
Theorem tag_stage (f : AppliedFilters)
    (problems : list LeetCodeProblem) (filtered : arrayRef) :
  (Applied.tags f = [] -> tagStage f problems filtered = filtered) /\
  (Applied.tags f <> [] ->
   exists keep,
     deref problems (tagStage f problems filtered) =
       filter keep (deref problems filtered) /\
     (forall p, keep p = true <-> hasSelectedTag f p) /\
     (forall p, topicTags p = None -> keep p = false)).
Proof.
  unfold tagStage. split; intros H.
  - now rewrite H.
  - exists (tagPred f).
    split; [destruct (Applied.tags f); [contradiction | reflexivity] |].
    split; [apply tagPred_spec |].
    intros p Hp. unfold tagPred. now rewrite Hp.
Qed.

(** ** The whole evaluation *)

Lemma implb_spec (c x : bool) :
  implb c x = true <-> (c = true -> x = true).
Proof. destruct c, x; simpl; intuition congruence. Qed.

Lemma truthy_spec (s : string) : Js.truthy s = true <-> s <> "".
Proof. destruct s; simpl; split; congruence. Qed.

Lemma size_positive (s : Js.StringSet) : (Js.size s >? 0) = true <-> s <> [].
Proof.
  unfold Js.size. destruct s; simpl; split; try congruence; try lia.
  intros _. reflexivity.
Qed.

Lemma passes_spec (f : AppliedFilters) (p : LeetCodeProblem) :
  passes f p = true <-> satisfies f p.
Proof.
  unfold passes, satisfies, matchesSearch.
  rewrite !andb_true_iff, !implb_spec.
  rewrite truthy_spec, negb_true_iff, String.eqb_neq, !size_positive.
  rewrite ratingGuard_spec, searchPred_spec, difficultyPred_spec.
  rewrite tagPred_spec, subtagPred_spec, ratingPred_spec.
  unfold hasSelectedSubtag. tauto.
Qed.

(** The array that [filteredAndSortedProblems] returns holds, each as
    often as the dataset does, exactly the problems of the dataset that
    satisfy every stage that runs: the stages combine as a conjunction. *)
Theorem filteredAndSorted_members (localeCompare : string -> string -> Q)
    (problems : list LeetCodeProblem) (f : AppliedFilters) :
  let result := fst (filteredAndSortedProblems localeCompare problems f) in
  (exists keep,
      Permutation result (filter keep problems) /\
      forall p, keep p = true <-> satisfies f p) /\
  (forall p, In p result <-> In p problems /\ satisfies f p) /\
  (List.length result <= List.length problems)%nat.
Proof.
  intros result. unfold result. rewrite filteredAndSorted_result.
  split; [| split].
  - exists (passes f). split; [apply sort_perm | apply passes_spec].
  - intros p. now rewrite In_sort, filter_In, passes_spec.
  - rewrite (Permutation_length (sort_perm _ _)). apply filter_length_le.
Qed.

(** ** Sorting with a consistent comparator *)

Section SortOrder.
Context {A : Type} (cmp : A -> A -> Q).

Lemma insert_in_front (x : A) (l : list A) :
  Forall (noLater cmp x) l -> Js.insert cmp x l = x :: l.
Proof.
  destruct l as [|y l]; [reflexivity |].
  intros H. inversion H as [|? ? Hy _]; subst. simpl.
  unfold noLater in Hy. apply Qle_bool_iff in Hy. now rewrite Hy.
Qed.

(** Sorting a sequence that is in order gives it back. *)
Lemma sort_of_sorted (l : list A) :
  StronglySorted (noLater cmp) l -> Js.sort cmp l = l.
Proof.
  induction 1 as [|x l Hl IH Hx]; [reflexivity |].
  unfold Js.sort in *. simpl. rewrite IH. now apply insert_in_front.
Qed.

Lemma insert_in_order (x : A) (l : list A) :
  consistent cmp ->
  StronglySorted (noLater cmp) l ->
  StronglySorted (noLater cmp) (Js.insert cmp x l).
Proof.
  intros [Htotal Htrans]. induction 1 as [|y l Hl IH Hy]; simpl.
  - repeat constructor.
  - destruct (Qle_bool (cmp x y) 0) eqn:E.
    + apply Qle_bool_iff in E.
      constructor; [now constructor |].
      constructor; [exact E |].
      eapply Forall_impl; [| exact Hy].
      intros z Hz. eapply Htrans; eassumption.
    + constructor; [exact IH |].
      rewrite Forall_forall. intros z Hz.
      apply (Permutation_in _ (insert_perm _ _ _)) in Hz.
      destruct Hz as [<- | Hz].
      * destruct (Htotal x y) as [C | C]; [| exact C].
        apply Qle_bool_iff in C. congruence.
      * rewrite Forall_forall in Hy. now apply Hy.
Qed.

Lemma sort_in_order (l : list A) :
  consistent cmp -> StronglySorted (noLater cmp) (Js.sort cmp l).
Proof.
  intros H. induction l as [|x l IH]; [constructor |].
  unfold Js.sort in *. simpl. now apply insert_in_order.
Qed.

Lemma sort_sort (l : list A) :
  consistent cmp -> Js.sort cmp (Js.sort cmp l) = Js.sort cmp l.
Proof. intros H. apply sort_of_sorted, sort_in_order, H. Qed.

(** The members of a class that the comparator ties keep their order. *)
Lemma insert_filter (P : A -> bool) (x : A) (l : list A) :
  (forall y, P x = true -> P y = true -> noLater cmp x y) ->
  filter P (Js.insert cmp x l) = filter P (x :: l).
Proof.
  intros Htie. induction l as [|y l IH]; [reflexivity |].
  simpl Js.insert. destruct (Qle_bool (cmp x y) 0) eqn:E; [reflexivity |].
  simpl in *. rewrite IH.
  destruct (P x) eqn:Px; [| reflexivity].
  destruct (P y) eqn:Py; [| reflexivity].
  specialize (Htie y eq_refl Py). apply Qle_bool_iff in Htie. congruence.
Qed.

Lemma sort_filter (P : A -> bool) (l : list A) :
  (forall x y, P x = true -> P y = true -> noLater cmp x y) ->
  filter P (Js.sort cmp l) = filter P l.
Proof.
  intros Htie. induction l as [|x l IH]; [reflexivity |].
  unfold Js.sort in *. simpl fold_right.
  rewrite insert_filter by (intros y; apply Htie).
  simpl. now rewrite IH.
Qed.

Lemma sorted_weaken (R : A -> A -> Prop) (l : list A) :
  (forall x y, noLater cmp x y -> R x y) ->
  StronglySorted (noLater cmp) l -> StronglySorted R l.
Proof.
  intros HR. induction 1 as [|x l Hl IH Hx]; constructor; [exact IH |].
  eapply Forall_impl; [| exact Hx]. intros y. apply HR.
Qed.
End SortOrder.

(** ** The comparator of the route *)

Section Comparator.
Variable localeCompare : string -> string -> Q.

Lemma compareFn_rating_ascending (f : AppliedFilters)
    (a b : LeetCodeProblem) :
  sortsByRatingAscending (Applied.sortBy f) ->
  compareFn localeCompare f a b = (Rating a - Rating b)%Q.
Proof.
  intros [H1 [H2 [H3 [H4 H5]]]]. unfold compareFn.
  apply String.eqb_neq in H1, H2, H3, H4, H5.
  rewrite H1, H2, H3, H4, H5.
  now destruct (String.eqb (Applied.sortBy f) "rating-asc").
Qed.

Lemma compareFn_key (f : AppliedFilters) (a b : LeetCodeProblem) :
  (Applied.sortBy f = "rating-desc" ->
   compareFn localeCompare f a b = (Rating b - Rating a)%Q) /\
  (Applied.sortBy f = "id-asc" ->
   compareFn localeCompare f a b = inject_Z (ID a - ID b)) /\
  (Applied.sortBy f = "id-desc" ->
   compareFn localeCompare f a b = inject_Z (ID b - ID a)) /\
  (Applied.sortBy f = "title-asc" ->
   compareFn localeCompare f a b = localeCompare (Title a) (Title b)) /\
  (Applied.sortBy f = "title-desc" ->
   compareFn localeCompare f a b = localeCompare (Title b) (Title a)).
Proof.
  unfold compareFn. repeat split; intros ->; reflexivity.
Qed.

Lemma id_noLater (x y : Z) : (inject_Z (x - y) <= 0)%Q <-> x <= y.
Proof.
  change 0%Q with (inject_Z 0). rewrite <- Zle_Qle. lia.
Qed.

Lemma sortKey_cases (key : string) :
  sortsByRatingAscending key \/ key = "rating-desc" \/ key = "id-asc" \/
  key = "id-desc" \/ key = "title-asc" \/ key = "title-desc".
Proof.
  unfold sortsByRatingAscending.
  destruct (String.eqb_spec key "rating-desc"); [tauto |].
  destruct (String.eqb_spec key "id-asc"); [tauto |].
  destruct (String.eqb_spec key "id-desc"); [tauto |].
  destruct (String.eqb_spec key "title-asc"); [tauto |].
  destruct (String.eqb_spec key "title-desc"); tauto.
Qed.

(** With a consistent collation the comparator is consistent for every
    sort key. *)
Lemma compareFn_consistent (f : AppliedFilters) :
  consistent localeCompare -> consistent (compareFn localeCompare f).
Proof.
  intros [Htotal Htrans]. unfold consistent, noLater in *.
  destruct (sortKey_cases (Applied.sortBy f))
    as [H | [H | [H | [H | [H | H]]]]].
  - split; intros; rewrite !compareFn_rating_ascending in * by exact H; lra.
  - split; intros x y; [| intros z];
      rewrite !(proj1 (compareFn_key f _ _) H); lra.
  - split; intros x y; [| intros z];
      rewrite !(proj1 (proj2 (compareFn_key f _ _)) H), !id_noLater; lia.
  - split; intros x y; [| intros z];
      rewrite !(proj1 (proj2 (proj2 (compareFn_key f _ _))) H),
        !id_noLater; lia.
  - split; intros x y; [| intros z];
      rewrite !(proj1 (proj2 (proj2 (proj2 (compareFn_key f _ _)))) H).
    + apply Htotal.
    + apply Htrans.
  - split; intros x y; [| intros z];
      rewrite !(proj2 (proj2 (proj2 (proj2 (compareFn_key f _ _)))) H).
    + destruct (Htotal (Title x) (Title y)); tauto.
    + intros H1 H2. eapply Htrans; eassumption.
Qed.

(** The keys that do not call the collation are consistent whatever it
    is. *)
Lemma compareFn_consistent_numeric (f : AppliedFilters) :
  Applied.sortBy f <> "title-asc" -> Applied.sortBy f <> "title-desc" ->
  consistent (compareFn localeCompare f).
Proof.
  intros Ha Hd. unfold consistent, noLater.
  destruct (sortKey_cases (Applied.sortBy f))
    as [H | [H | [H | [H | [H | H]]]]]; try contradiction.
  - split; intros; rewrite !compareFn_rating_ascending in * by exact H; lra.
  - split; intros x y; [| intros z];
      rewrite !(proj1 (compareFn_key f _ _) H); lra.
  - split; intros x y; [| intros z];
      rewrite !(proj1 (proj2 (compareFn_key f _ _)) H), !id_noLater; lia.
  - split; intros x y; [| intros z];
      rewrite !(proj1 (proj2 (proj2 (compareFn_key f _ _))) H),
        !id_noLater; lia.
Qed.

End Comparator.

Lemma defaultCompare_consistent : consistent Js.defaultCompare.
Proof.
  assert (forall x y, noLater Js.defaultCompare x y <-> string_le x y) as E.
  { intros x y. unfold noLater. rewrite <- Qle_bool_iff.
    apply defaultCompare_le. }
  split.
  - intros x y. rewrite !E. unfold string_le.
    destruct (Js.string_ltb y x) eqn:L; [right | now left].
    now apply string_ltb_asym.
  - intros x y z. rewrite !E. apply string_le_trans.
Qed.

(** ** The order of the result *)

Lemma rating_ascending_result (localeCompare : string -> string -> Q)
    (problems : list LeetCodeProblem) (f : AppliedFilters) :
  sortsByRatingAscending (Applied.sortBy f) ->
  StronglySorted (fun a b => (Rating a <= Rating b)%Q)
    (fst (filteredAndSortedProblems localeCompare problems f)).
Proof.
  intros H. rewrite filteredAndSorted_result.
  eapply sorted_weaken;
    [| apply sort_in_order, compareFn_consistent_numeric; apply H].
  intros a b. unfold noLater.
  rewrite compareFn_rating_ascending by exact H. lra.
Qed.

(** For the key "rating-asc" and for every key that the comparator does
    not know, the result is in ascending order of rating; for
    "rating-desc" it is in descending order of rating. *)
Theorem sorted_by_rating (localeCompare : string -> string -> Q)
    (problems : list LeetCodeProblem) (f : AppliedFilters) :
  let result := fst (filteredAndSortedProblems localeCompare problems f) in
  (sortsByRatingAscending (Applied.sortBy f) ->
   StronglySorted (fun a b => (Rating a <= Rating b)%Q) result) /\
  (Applied.sortBy f = "rating-desc" ->
   StronglySorted (fun a b => (Rating b <= Rating a)%Q) result).
Proof.
  intros result. unfold result.
  split; intros H; [now apply rating_ascending_result |].
  rewrite filteredAndSorted_result.
  eapply sorted_weaken;
    [| apply sort_in_order, compareFn_consistent_numeric;
       rewrite H; discriminate].
  intros a b. unfold noLater.
  rewrite (proj1 (compareFn_key localeCompare f a b) H). lra.
Qed.

(** For the key "id-asc" the result is in ascending order of id, for
    "id-desc" in descending order of id. *)
Theorem sorted_by_id (localeCompare : string -> string -> Q)
    (problems : list LeetCodeProblem) (f : AppliedFilters) :
  let result := fst (filteredAndSortedProblems localeCompare problems f) in
  (Applied.sortBy f = "id-asc" ->
   StronglySorted (fun a b => ID a <= ID b) result) /\
  (Applied.sortBy f = "id-desc" ->
   StronglySorted (fun a b => ID b <= ID a) result).
Proof.
  intros result. unfold result. rewrite filteredAndSorted_result.
  split; intros H;
    (eapply sorted_weaken;
     [| apply sort_in_order, compareFn_consistent_numeric;
        rewrite H; discriminate]);
    intros a b; unfold noLater.
  - rewrite (proj1 (proj2 (compareFn_key localeCompare f a b)) H).
    apply id_noLater.
  - rewrite (proj1 (proj2 (proj2 (compareFn_key localeCompare f a b))) H).
    apply id_noLater.
Qed.

(** With a collation that orders strings consistently, the result is in
    the order of the collation on titles for the key "title-asc", and in
    the reverse order for "title-desc". *)
Theorem sorted_by_title (localeCompare : string -> string -> Q)
    (problems : list LeetCodeProblem) (f : AppliedFilters) :
  consistent localeCompare ->
  let result := fst (filteredAndSortedProblems localeCompare problems f) in
  (Applied.sortBy f = "title-asc" ->
   StronglySorted
     (fun a b => noLater localeCompare (Title a) (Title b)) result) /\
  (Applied.sortBy f = "title-desc" ->
   StronglySorted
     (fun a b => noLater localeCompare (Title b) (Title a)) result).
Proof.
  intros Hlc result. unfold result. rewrite filteredAndSorted_result.
  split; intros H;
    (eapply sorted_weaken;
     [| apply sort_in_order, compareFn_consistent, Hlc]);
    intros a b; unfold noLater.
  - now rewrite (proj1 (proj2 (proj2 (proj2
        (compareFn_key localeCompare f a b)))) H).
  - now rewrite (proj2 (proj2 (proj2 (proj2
        (compareFn_key localeCompare f a b)))) H).
Qed.

(** The sort is stable: the problems of a class whose members the
    comparator ties with one another come in the result in the order in
    which the dataset has them. *)
Theorem sort_is_stable (localeCompare : string -> string -> Q)
    (problems : list LeetCodeProblem) (f : AppliedFilters)
    (class : LeetCodeProblem -> bool) :
  (forall a b,
      class a = true -> class b = true ->
      (compareFn localeCompare f a b == 0)%Q) ->
  let result := fst (filteredAndSortedProblems localeCompare problems f) in
  exists keep,
    (forall p, keep p = true <-> satisfies f p) /\
    filter class result = filter class (filter keep problems).
Proof.
  intros Htie result. exists (passes f). split; [apply passes_spec |].
  unfold result. rewrite filteredAndSorted_result.
  apply sort_filter. intros a b Ha Hb. unfold noLater.
  rewrite (Htie a b Ha Hb). lra.
Qed.

(** ** Evaluating with and without an active filter *)

Lemma hasActiveFilters_filtersActive (f : AppliedFilters) :
  View.hasActiveFilters f = filtersActive f.
Proof.
  unfold View.hasActiveFilters, filtersActive. now rewrite !orb_assoc.
Qed.

Lemma passes_inactive (f : AppliedFilters) (l : list LeetCodeProblem) :
  filtersActive f = false -> filter (passes f) l = l.
Proof.
  unfold filtersActive, passes. intros H.
  repeat (apply orb_false_iff in H; destruct H as [H ?]).
  rewrite <- (filter_all l) at 2. apply filter_ext. intros p.
  repeat match goal with E : _ = false |- _ => rewrite E; clear E end.
  reflexivity.
Qed.

(** When [hasActiveFilters] is false the evaluation returns all the
    problems of the dataset, rearranged, and leaves the dataset array in
    that same arrangement; when it is true the dataset array is left as it
    was. *)
Theorem evaluation_and_active_filters (localeCompare : string -> string -> Q)
    (problems : list LeetCodeProblem) (f : AppliedFilters) :
  let result := fst (filteredAndSortedProblems localeCompare problems f) in
  let after := snd (filteredAndSortedProblems localeCompare problems f) in
  (View.hasActiveFilters f = false ->
   Permutation result problems /\
   List.length result = List.length problems /\
   after = result) /\
  (View.hasActiveFilters f = true -> after = problems) /\
  Permutation after problems.
Proof.
  intros result after. unfold result, after.
  rewrite filteredAndSorted_result, filteredAndSorted_dataset.
  rewrite hasActiveFilters_filtersActive.
  split; [| split].
  - intros H. rewrite H, (passes_inactive f problems H).
    split; [apply sort_perm |].
    split; [apply Permutation_length, sort_perm | reflexivity].
  - intros H. now rewrite H.
  - destruct (filtersActive f); [reflexivity | apply sort_perm].
Qed.

(** With a collation that orders strings consistently, evaluating again
    on the dataset array as a first evaluation left it returns the same
    result and leaves the array as it is. *)
Theorem evaluation_repeats (localeCompare : string -> string -> Q)
    (problems : list LeetCodeProblem) (f : AppliedFilters) :
  consistent localeCompare ->
  let first := filteredAndSortedProblems localeCompare problems f in
  filteredAndSortedProblems localeCompare (snd first) f = first.
Proof.
  intros Hlc first.
  pose proof (compareFn_consistent localeCompare f Hlc) as Hcmp.
  assert (snd first =
          if filtersActive f then problems
          else Js.sort (compareFn localeCompare f) problems) as Hsnd
    by apply filteredAndSorted_dataset.
  destruct (filtersActive f) eqn:A.
  - rewrite Hsnd. reflexivity.
  - assert (fst first = Js.sort (compareFn localeCompare f) problems)
      as Hfst.
    { unfold first.
      now rewrite filteredAndSorted_result, (passes_inactive f _ A). }
    apply injective_projections.
    + rewrite filteredAndSorted_result, (passes_inactive f _ A).
      rewrite Hsnd, Hfst. now apply sort_sort.
    + rewrite filteredAndSorted_dataset, A, Hsnd. now apply sort_sort.
Qed.

(** ** Committing the pending filters *)

Lemma parseInt_integer (text : string) :
  Js.parseInt text = Js.NaN \/ exists z, Js.parseInt text = num z.
Proof.
  unfold Js.parseInt.
  destruct (Js.strip_sign (Js.trimStart text)) as [sign s1].
  destruct (Js.strip_radix s1) as [radix s2].
  destruct (Js.parse_digits radix s2 None) as [n |]; [right | now left].
  now exists (sign * n).
Qed.

Lemma parseBound_integer (text : string) (fallback : Z) :
  parseBound text fallback = Js.NaN \/
  exists z, parseBound text fallback = num z.
Proof.
  unfold parseBound. destruct (Js.truthy text); [apply parseInt_integer |].
  right. now exists fallback.
Qed.

Lemma parseBound_toString (z fallback : Z) :
  parseBound (Js.toString z) fallback = num z.
Proof.
  unfold parseBound. rewrite toString_truthy. apply parseInt_toString.
Qed.


(** ** The saved filters *)



Lemma truthyNumber_integer (z : Z) :
  Storage.truthyNumber (Some (inject_Z z)) =
  if z =? 0 then None else Some (inject_Z z).
Proof.
  unfold Storage.truthyNumber, Qeq_bool, inject_Z. simpl.
  rewrite Z.mul_1_r. now destruct z.
Qed.


Lemma num_injective (x y : Z) : num x = num y -> x = y.
Proof. unfold num, inject_Z. congruence. Qed.


(** After a reload the pending filters are those that give the applied
    ones: applying them again changes nothing.  The bounds are integers
    that a number holds exactly, and the conversion of such a number to a
    string is its decimal rendering. *)
Theorem reload_pending_gives_applied (numberToString : Q -> string)
    (p : PendingFilters) :
  (forall z, safeInteger z -> numberToString (inject_Z z) = Js.toString z) ->
  (forall z, Applied.ratingMin (applyFilters p) = num z -> safeInteger z) ->
  (forall z, Applied.ratingMax (applyFilters p) = num z -> safeInteger z) ->
  let saved := Storage.saveFilters (applyFilters p) in
  applyFilters (Storage.loadPending numberToString saved) =
  Storage.loadApplied saved.
Proof.
  intros Hstring Hlo Hhi saved. unfold saved.
  unfold Storage.loadApplied, Storage.loadPending, Storage.saveFilters,
    applyFilters in *.
  simpl in *. unfold Js.arrayFrom.
  rewrite !newSet_newSet. f_equal.
  - destruct (parseBound_integer (Pending.ratingMin p) 0) as [E | [z E]];
      rewrite E in *; [reflexivity |].
    simpl. unfold Storage.orEmpty, Storage.orNumber.
    rewrite truthyNumber_integer.
    destruct (z =? 0); [reflexivity |].
    rewrite (Hstring z (Hlo z eq_refl)). apply parseBound_toString.
  - destruct (parseBound_integer (Pending.ratingMax p) 4000) as [E | [z E]];
      rewrite E in *; [reflexivity |].
    simpl. unfold Storage.orEmpty, Storage.orNumber.
    rewrite truthyNumber_integer.
    destruct (z =? 0); [reflexivity |].
    rewrite (Hstring z (Hhi z eq_refl)). apply parseBound_toString.
Qed.

(** ** Editing the selection *)

Lemma In_decidable (x : string) (l : list string) : In x l \/ ~ In x l.
Proof. destruct (in_dec string_dec x l); auto. Qed.

Lemma toggleSubtag_In (subtagName : string) (q : PendingFilters)
    (x : string) :
  In x (Pending.selectedSubtags (toggleSubtag subtagName q)) <->
  (x = subtagName /\ ~ In subtagName (Pending.selectedSubtags q)) \/
  (x <> subtagName /\ In x (Pending.selectedSubtags q)).
Proof.
  unfold toggleSubtag. simpl.
  destruct (Js.has (Js.newSet (Pending.selectedSubtags q)) subtagName)
    eqn:E.
  - rewrite has_In, In_newSet in E.
    rewrite In_delete, In_newSet. intuition congruence.
  - assert (~ In subtagName (Pending.selectedSubtags q)) as N.
    { intros C. rewrite <- In_newSet, <- has_In in C. congruence. }
    rewrite In_add, In_newSet.
    destruct (string_dec x subtagName) as [-> | D]; intuition congruence.
Qed.

(** [toggleSubtag] flips the selection of its subtag and of no other, and
    leaves the selected tags alone; toggling twice gives the selection
    back. *)
Theorem toggleSubtag_flips (subtagName : string) (prev : PendingFilters) :
  let next := toggleSubtag subtagName prev in
  (In subtagName (Pending.selectedSubtags next) <->
   ~ In subtagName (Pending.selectedSubtags prev)) /\
  (forall other,
      other <> subtagName ->
      (In other (Pending.selectedSubtags next) <->
       In other (Pending.selectedSubtags prev))) /\
  Pending.selectedTags next = Pending.selectedTags prev /\
  sameMembers
    (Pending.selectedSubtags (toggleSubtag subtagName next))
    (Pending.selectedSubtags prev).
Proof.
  intros next. unfold next. split; [| split; [| split]].
  - rewrite toggleSubtag_In. intuition congruence.
  - intros other D. rewrite toggleSubtag_In. intuition congruence.
  - reflexivity.
  - intros x. rewrite !toggleSubtag_In.
    destruct (string_dec x subtagName) as [-> | D];
      destruct (In_decidable subtagName (Pending.selectedSubtags prev));
      intuition congruence.
Qed.

Lemma toggleTag_select_In (problems : list LeetCodeProblem)
    (tagName : string) (prev : PendingFilters) :
  ~ In tagName (Pending.selectedTags prev) ->
  (forall t,
      In t (Pending.selectedTags (toggleTag problems tagName prev)) <->
      In t (Pending.selectedTags prev) \/ t = tagName) /\
  (forall x,
      In x (Pending.selectedSubtags (toggleTag problems tagName prev)) <->
      In x (Pending.selectedSubtags prev)).
Proof.
  intros Hsel. unfold toggleTag.
  replace (Js.has (Js.newSet (Pending.selectedTags prev)) tagName)
    with false.
  - simpl. split.
    + intros t. now rewrite In_add, In_newSet.
    + intros x. apply In_newSet.
  - symmetry. apply not_true_is_false. intros C.
    rewrite has_In, In_newSet in C. contradiction.
Qed.

(** [toggleTag] on a tag that is not selected selects it and keeps the
    selected subtags as they are. *)
Theorem toggleTag_select (problems : list LeetCodeProblem)
    (tagName : string) (prev : PendingFilters) :
  ~ In tagName (Pending.selectedTags prev) ->
  let next := toggleTag problems tagName prev in
  (forall t,
      In t (Pending.selectedTags next) <->
      In t (Pending.selectedTags prev) \/ t = tagName) /\
  sameMembers (Pending.selectedSubtags next) (Pending.selectedSubtags prev).
Proof. intros Hsel. apply (toggleTag_select_In problems tagName prev Hsel). Qed.

(** *** The selected subtags stay among those on offer *)

Lemma availableSubtags_In (problems : list LeetCodeProblem)
    (selected : list string) (subtag : string) :
  In subtag (availableSubtags problems selected) <->
  offeredUnder problems selected subtag.
Proof.
  unfold availableSubtags, Js.arrayFrom.
  destruct selected as [|t others].
  - simpl. split; [contradiction |].
    intros [problem [tag [_ [_ [[] _]]]]].
  - replace (Js.size (t :: others) =? 0) with false
      by (unfold Js.size; simpl; lia).
    rewrite In_sort.
    rewrite (forEach_grows _ (fun problem y =>
      exists tag, tagOf problem tag /\ In (name tag) (t :: others) /\
                  subtagOf tag y)).
    + unfold offeredUnder. split.
      * intros [[] | [problem [Hp [tag H]]]]. now exists problem, tag.
      * intros [problem [tag [Hp H]]]. right. exists problem. eauto.
    + intros problem set y. unfold tagOf.
      destruct (topicTags problem) as [tags |].
      * rewrite (forEach_grows _ (fun tag y =>
          In (name tag) (t :: others) /\ subtagOf tag y)).
        -- split.
           ++ intros [H | [tag [Ht H]]]; [auto | right].
              exists tag. split; [now exists tags | exact H].
           ++ intros [Hy | [tag [[l [E Ht]] Hy]]]; [auto |].
              injection E as <-. eauto.
        -- intros tag s z. apply subtag_round_In.
      * split; [auto |].
        intros [Hy | [tag [[l [E _]] _]]]; [exact Hy | discriminate].
Qed.

Lemma toggleTag_deselect_subtags (problems : list LeetCodeProblem)
    (tagName : string) (prev : PendingFilters) (subtag : string) :
  In tagName (Pending.selectedTags prev) ->
  In subtag (Pending.selectedSubtags (toggleTag problems tagName prev)) <->
  In subtag (Pending.selectedSubtags prev) /\
  ~ listedUnder problems tagName subtag.
Proof.
  intros Hsel. unfold toggleTag.
  replace (Js.has (Js.newSet (Pending.selectedTags prev)) tagName) with true
    by (symmetry; apply has_In, In_newSet, Hsel).
  simpl.
  rewrite (forEach_shrinks _ (fun problem y =>
    exists tag, firstTagNamed problem tagName tag /\ subtagOf tag y)).
  - rewrite In_newSet. unfold listedUnder.
    split; intros [H N]; (split; [exact H |]); intros C; apply N.
    + destruct C as [problem [tag [Hp H']]]. exists problem. eauto.
    + destruct C as [problem [Hp [tag H']]]. exists problem, tag. tauto.
  - intros problem set y. apply purge_round_In.
Qed.

Lemma find_unique_name (tags : list TopicTag) (tag : TopicTag) :
  NoDup (map name tags) -> In tag tags ->
  arrayFind tags (fun t => String.eqb (name t) (name tag)) = Some tag.
Proof.
  unfold arrayFind. induction tags as [|t tags IH]; intros Hnd Hin.
  - contradiction.
  - simpl in *. inversion Hnd as [|? ? Hnotin Hnd']; subst.
    destruct Hin as [-> | Hin].
    + now rewrite String.eqb_refl.
    + destruct (String.eqb_spec (name t) (name tag)) as [E | _].
      * exfalso. apply Hnotin. rewrite E. now apply in_map.
      * now apply IH.
Qed.

(** When the tags of each problem have distinct names, [toggleTag] keeps
    the selected subtags among those on offer for the selected tags,
    whether it selects the tag or deselects it. *)
Theorem toggleTag_keeps_subtags_offered (problems : list LeetCodeProblem)
    (tagName : string) (prev : PendingFilters) :
  (forall problem, In problem problems -> uniqueTagNames problem) ->
  subtagsOffered problems prev ->
  subtagsOffered problems (toggleTag problems tagName prev).
Proof.
  intros Hunique Hprev subtag Hin.
  apply availableSubtags_In.
  destruct (In_decidable tagName (Pending.selectedTags prev)) as [Hsel | Hsel].
  - apply (toggleTag_deselect_subtags problems tagName prev subtag Hsel)
      in Hin as [Hin Hnot].
    apply Hprev, availableSubtags_In in Hin
      as [problem [tag [Hp [Htag [Hname Hsub]]]]].
    exists problem, tag. repeat split; try assumption.
    unfold toggleTag.
    replace (Js.has (Js.newSet (Pending.selectedTags prev)) tagName)
      with true by (symmetry; apply has_In, In_newSet, Hsel).
    simpl. rewrite In_delete, In_newSet. split; [exact Hname |].
    intros E. apply Hnot. exists problem, tag.
    repeat split; try assumption.
    destruct Htag as [tags [Ht Hintag]]. exists tags. split; [exact Ht |].
    rewrite <- E. apply find_unique_name; [| exact Hintag].
    specialize (Hunique problem Hp). unfold uniqueTagNames in Hunique.
    now rewrite Ht in Hunique.
  - destruct (toggleTag_select_In problems tagName prev Hsel)
      as [Htags Hsubs].
    apply Hsubs, Hprev, availableSubtags_In in Hin
      as [problem [tag [Hp [Htag [Hname Hsub]]]]].
    exists problem, tag. repeat split; try assumption.
    apply Htags. now left.
Qed.

(** [toggleSubtag] on a subtag that is on offer keeps the selected subtags
    among those on offer. *)
Theorem toggleSubtag_keeps_subtags_offered (problems : list LeetCodeProblem)
    (subtagName : string) (prev : PendingFilters) :
  In subtagName (availableSubtags problems (Pending.selectedTags prev)) ->
  subtagsOffered problems prev ->
  subtagsOffered problems (toggleSubtag subtagName prev).
Proof.
  intros Hoffer Hprev subtag Hin.
  change (Pending.selectedTags (toggleSubtag subtagName prev))
    with (Pending.selectedTags prev).
  destruct (string_dec subtag subtagName) as [-> | D]; [exact Hoffer |].
  apply Hprev. apply toggleSubtag_In in Hin. intuition congruence.
Qed.

(** ** Removing one applied filter *)

Lemma has_filter (P : string -> bool) (acc : Js.StringSet) (x : string) :
  P x = true -> Js.has (filter P acc) x = Js.has acc x.
Proof.
  intros Px. induction acc as [|y acc IH]; [reflexivity |].
  unfold Js.has in *. simpl.
  destruct (P y) eqn:Py; simpl; rewrite IH; [reflexivity |].
  destruct (String.eqb_spec x y) as [-> | _]; [congruence | reflexivity].
Qed.

Lemma filter_fold_add (P : string -> bool) (l : list string)
    (acc : Js.StringSet) :
  filter P (fold_left Js.add l acc) =
  fold_left Js.add (filter P l) (filter P acc).
Proof.
  revert acc; induction l as [|x l IH]; intros acc; [reflexivity |].
  simpl. rewrite IH. destruct (P x) eqn:Px.
  - simpl. f_equal. unfold Js.add. rewrite (has_filter P acc x Px).
    destruct (Js.has acc x); [reflexivity |].
    rewrite filter_app. simpl. now rewrite Px.
  - f_equal. unfold Js.add.
    destruct (Js.has acc x); [reflexivity |].
    rewrite filter_app. simpl. now rewrite Px, app_nil_r.
Qed.

Lemma delete_newSet (l : list string) (v : string) :
  Js.delete (Js.newSet l) v = Js.newSet (Js.delete l v).
Proof. unfold Js.delete, Js.newSet. apply filter_fold_add. Qed.

(** Removing a filter from filters that were just applied leaves the
    pending and the applied filters in agreement: applying the new pending
    filters gives the new applied ones, whatever the kind of filter and
    whether or not a value comes with it. *)
Theorem removeAppliedFilter_keeps_agreement (type : string)
    (value : option string) (p : PendingFilters) :
  let removed := removeAppliedFilter type value (applyFilters p) p in
  applyFilters (snd removed) = fst removed.
Proof.
  intros removed. unfold removed, removeAppliedFilter.
  destruct (String.eqb type "search"); [reflexivity |].
  destruct (String.eqb type "difficulty"); [reflexivity |].
  destruct (String.eqb type "tag").
  { destruct (truthyArg value) as [v |]; [| reflexivity].
    unfold applyFilters, Applied.withTags. simpl. f_equal.
    now rewrite delete_newSet, newSet_newSet. }
  destruct (String.eqb type "subtag").
  { destruct (truthyArg value) as [v |]; [| reflexivity].
    unfold applyFilters, Applied.withSubtags. simpl. f_equal.
    now rewrite delete_newSet, newSet_newSet. }
  destruct (String.eqb type "rating"); reflexivity.
Qed.

(** What [removeAppliedFilter] removes: a tag or a subtag given by a
    non-empty value leaves both selections and nothing else does; "rating"
    puts the bounds back so that the rating stage no longer runs; a kind it
    does not know, or a tag without a value, changes nothing. *)
Theorem removeAppliedFilter_effect (a : AppliedFilters)
    (p : PendingFilters) :
  (forall v,
      v <> "" ->
      let removed := removeAppliedFilter "tag" (Some v) a p in
      (forall t, In t (Applied.tags (fst removed)) <->
                 In t (Applied.tags a) /\ t <> v) /\
      (forall t, In t (Pending.selectedTags (snd removed)) <->
                 In t (Pending.selectedTags p) /\ t <> v) /\
      Applied.subtags (fst removed) = Applied.subtags a /\
      Pending.selectedSubtags (snd removed) = Pending.selectedSubtags p) /\
  (forall v,
      v <> "" ->
      let removed := removeAppliedFilter "subtag" (Some v) a p in
      (forall t, In t (Applied.subtags (fst removed)) <->
                 In t (Applied.subtags a) /\ t <> v) /\
      (forall t, In t (Pending.selectedSubtags (snd removed)) <->
                 In t (Pending.selectedSubtags p) /\ t <> v)) /\
  ~ ratingStageRuns (fst (removeAppliedFilter "rating" None a p)) /\
  removeAppliedFilter "tag" None a p = (a, p) /\
  removeAppliedFilter "tag" (Some "") a p = (a, p) /\
  (forall type value,
      type <> "search" -> type <> "difficulty" -> type <> "tag" ->
      type <> "subtag" -> type <> "rating" ->
      removeAppliedFilter type value a p = (a, p)).
Proof.
  split; [| split; [| split; [| split; [| split]]]].
  - intros v Hv removed. unfold removed, removeAppliedFilter. simpl.
    apply truthy_spec in Hv. rewrite Hv. simpl.
    split; [intros t; rewrite In_newSet, In_delete; tauto |].
    split; [intros t; rewrite In_newSet, In_delete; tauto |].
    split; reflexivity.
  - intros v Hv removed. unfold removed, removeAppliedFilter. simpl.
    apply truthy_spec in Hv. rewrite Hv. simpl.
    split; intros t; rewrite In_newSet, In_delete; tauto.
  - simpl. intros [[lo [E H]] | [hi [E H]]]; simpl in E;
      injection E as <-; apply Qlt_not_le in H; apply H; discriminate.
  - reflexivity.
  - reflexivity.
  - intros type value H1 H2 H3 H4 H5. unfold removeAppliedFilter.
    apply String.eqb_neq in H1, H2, H3, H4, H5.
    now rewrite H1, H2, H3, H4, H5.
Qed.

(** ** What is shown *)

(** On a page within the pages of a result, "Showing a - b" starts right
    after the items of the pages before and counts exactly the items of the
    page; on an empty result it reads 0 - 0. *)
Theorem showing_range (l : list LeetCodeProblem) (page : Z) :
  (1 <= page <= totalPages l ->
   View.showingFrom l page = (page - 1) * 50 + 1 /\
   View.showingTo l page - View.showingFrom l page + 1 =
     Z.of_nat (List.length (paginatedProblems l page)) /\
   View.showingTo l page <= Z.of_nat (List.length l)) /\
  (l = [] -> 1 <= page ->
   View.showingFrom l page = 0 /\ View.showingTo l page = 0).
Proof.
  unfold View.showingFrom, View.showingTo, pageSize. split.
  - intros H. pose proof (totalPages_spec l) as T. cbv zeta in T.
    rewrite paginated_chunk by lia.
    rewrite length_firstn, length_skipn. lia.
  - intros -> H. simpl. lia.
Qed.

(** ** The session *)

Lemma Permutation_filter {A : Type} (P : A -> bool) (l l' : list A) :
  Permutation l l' -> Permutation (filter P l) (filter P l').
Proof.
  induction 1 as [| x l l' _ IH | x y l | l l' l'' _ IH1 _ IH2]; simpl.
  - constructor.
  - destruct (P x); [now constructor | exact IH].
  - destruct (P x), (P y); try reflexivity. apply perm_swap.
  - now rewrite IH1.
Qed.

Section SessionFacts.
Variable localeCompare : string -> string -> Q.

Lemma state_eta (s : State) :
  {| problems := problems s;
     appliedFilters := appliedFilters s;
     pendingFilters := pendingFilters s;
     currentPage := currentPage s;
     filteredAndSorted := filteredAndSorted s |} = s.
Proof. now destruct s. Qed.

Lemma render_fields (s : State) (applied : AppliedFilters)
    (pending : PendingFilters) (page : Z) :
  let s' := render localeCompare s applied pending page in
  appliedFilters s' = applied /\ pendingFilters s' = pending /\
  filteredAndSorted s' =
    fst (filteredAndSortedProblems localeCompare (problems s) applied) /\
  problems s' =
    snd (filteredAndSortedProblems localeCompare (problems s) applied).
Proof.
  unfold render.
  now destruct (filteredAndSortedProblems localeCompare (problems s) applied).
Qed.

End SessionFacts.

(** In every state of a session the result on display holds, each as
    often as the dataset does, exactly the problems of the dataset that
    satisfy the applied filters. *)
Theorem session_result (localeCompare : string -> string -> Q)
    (dataset : list LeetCodeProblem) (s : State) :
  reachable localeCompare dataset s ->
  (exists keep,
      (forall p, keep p = true <-> satisfies (appliedFilters s) p) /\
      Permutation (filteredAndSorted s) (filter keep dataset)) /\
  Permutation (problems s) dataset.
Proof.
  intros H. apply reachable_memoCurrent in H.
  split; [| now apply (memoCurrent_problems localeCompare)].
  destruct H as [before [Hperm E]].
  exists (passes (appliedFilters s)). split; [apply passes_spec |].
  replace (filteredAndSorted s)
    with (fst (filteredAndSortedProblems localeCompare before
                 (appliedFilters s)))
    by now rewrite E.
  rewrite filteredAndSorted_result, sort_perm.
  now apply Permutation_filter.
Qed.

(** "Clear All" puts both filter records back to their defaults and the
    page to 1, and shows every problem of the dataset, in ascending order
    of rating; the dataset array is left in that order. *)
Theorem clearAllFilters_shows_everything
    (localeCompare : string -> string -> Q)
    (dataset : list LeetCodeProblem) (s : State) :
  reachable localeCompare dataset s ->
  let s' := handle localeCompare s ClearAllFilters in
  appliedFilters s' = defaultApplied /\
  pendingFilters s' = defaultPending /\
  currentPage s' = 1 /\
  Permutation (filteredAndSorted s') dataset /\
  StronglySorted (fun a b => (Rating a <= Rating b)%Q)
    (filteredAndSorted s') /\
  problems s' = filteredAndSorted s'.
Proof.
  intros H s'. unfold s'.
  change (handle localeCompare s ClearAllFilters)
    with (render localeCompare s defaultApplied defaultPending 1).
  destruct (render_fields localeCompare s defaultApplied defaultPending 1)
    as [Ha [Hp [Hres Hds]]].
  split; [exact Ha |]. split; [exact Hp |].
  split; [apply render_currentPage |].
  rewrite Hds, Hres.
  rewrite filteredAndSorted_dataset.
  split; [| split].
  - rewrite filteredAndSorted_result, sort_perm.
    rewrite passes_inactive by reflexivity.
    apply (memoCurrent_problems localeCompare).
    now apply reachable_memoCurrent.
  - apply rating_ascending_result. repeat split; discriminate.
  - rewrite filteredAndSorted_result.
    now rewrite passes_inactive by reflexivity.
Qed.

(** When "Next" is offered it moves one page forward, after which
    "Previous" is offered and leads back to the state before; and the other
    way round. *)
Theorem next_and_previous_undo (localeCompare : string -> string -> Q)
    (dataset : list LeetCodeProblem) (s : State) :
  reachable localeCompare dataset s ->
  (offered s NextPage = true ->
   let s' := handle localeCompare s NextPage in
   currentPage s' = currentPage s + 1 /\
   offered s' PreviousPage = true /\
   handle localeCompare s' PreviousPage = s) /\
  (offered s PreviousPage = true ->
   let s' := handle localeCompare s PreviousPage in
   currentPage s' = currentPage s - 1 /\
   offered s' NextPage = true /\
   handle localeCompare s' NextPage = s).
Proof.
  intros H. apply reachable_pageInRange in H. unfold pageInRange in H.
  split; intros Hoff; simpl in *.
  - assert (Z.min (totalPages (filteredAndSorted s)) (currentPage s + 1)
            = currentPage s + 1) as E by lia.
    rewrite E. split; [reflexivity |]. split; [lia |].
    unfold setCurrentPage. simpl.
    replace (Z.max 1 (currentPage s + 1 - 1)) with (currentPage s) by lia.
    apply state_eta.
  - assert (Z.max 1 (currentPage s - 1) = currentPage s - 1) as E by lia.
    rewrite E. split; [reflexivity |]. split; [lia |].
    unfold setCurrentPage. simpl.
    replace (Z.min (totalPages (filteredAndSorted s))
               (currentPage s - 1 + 1)) with (currentPage s) by lia.
    apply state_eta.
Qed.

(** ** The further properties on concrete inputs *)

Lemma difficulty_stage_witness :
  exists keep,
    deref Example.dataset
      (difficultyStage MoreExamples.onlyHard Example.dataset Dataset) =
      filter keep Example.dataset /\
    (forall p, keep p = true <-> View.shownDifficulty p = "Hard") /\
    (forall p, problemDetails p = None -> (keep p = true <-> "Hard" = "Hard")) /\
    ("Hard" <> "Easy" -> "Hard" <> "Medium" -> "Hard" <> "Hard" ->
     deref Example.dataset
       (difficultyStage MoreExamples.onlyHard Example.dataset Dataset) = []).
Proof.
  apply (difficulty_stage MoreExamples.onlyHard Example.dataset Dataset).
  simpl. discriminate.
Defined.

Lemma tag_stage_witness :
  exists keep,
    deref Example.dataset
      (tagStage MoreExamples.selectedArray Example.dataset Dataset) =
      filter keep Example.dataset /\
    (forall p, keep p = true <-> hasSelectedTag MoreExamples.selectedArray p) /\
    (forall p, topicTags p = None -> keep p = false).
Proof.
  apply (tag_stage MoreExamples.selectedArray Example.dataset Dataset).
  simpl. discriminate.
Defined.

Lemma sorted_by_rating_witness :
  StronglySorted (fun a b => (Rating a <= Rating b)%Q)
    (fst (filteredAndSortedProblems Example.localeCompare Example.dataset
            defaultApplied)).
Proof.
  apply (sorted_by_rating Example.localeCompare Example.dataset
           defaultApplied).
  simpl. repeat split; discriminate.
Defined.

Lemma sorted_by_id_witness :
  StronglySorted (fun a b => ID b <= ID a)
    (fst (filteredAndSortedProblems Example.localeCompare Example.dataset
            (MoreExamples.sortedBy "id-desc"))).
Proof.
  apply (sorted_by_id Example.localeCompare Example.dataset
           (MoreExamples.sortedBy "id-desc")).
  reflexivity.
Defined.

Lemma sorted_by_title_witness :
  StronglySorted
    (fun a b => noLater Example.localeCompare (Title a) (Title b))
    (fst (filteredAndSortedProblems Example.localeCompare Example.dataset
            (MoreExamples.sortedBy "title-asc"))).
Proof.
  apply (sorted_by_title Example.localeCompare Example.dataset
           (MoreExamples.sortedBy "title-asc") defaultCompare_consistent).
  reflexivity.
Defined.

Lemma sort_is_stable_witness :
  exists keep,
    (forall p, keep p = true <-> satisfies defaultApplied p) /\
    filter MoreExamples.rated1200
      (fst (filteredAndSortedProblems Example.localeCompare
              MoreExamples.tied defaultApplied)) =
    filter MoreExamples.rated1200 (filter keep MoreExamples.tied).
Proof.
  apply (sort_is_stable Example.localeCompare MoreExamples.tied
           defaultApplied MoreExamples.rated1200).
  intros a b Ha Hb. unfold MoreExamples.rated1200 in *.
  apply Qeq_bool_iff in Ha, Hb.
  change (compareFn Example.localeCompare defaultApplied a b)
    with (Rating a - Rating b)%Q.
  lra.
Defined.

Lemma evaluation_and_active_filters_witness :
  snd (filteredAndSortedProblems Example.localeCompare Example.dataset
         defaultApplied) =
  fst (filteredAndSortedProblems Example.localeCompare Example.dataset
         defaultApplied).
Proof.
  apply (evaluation_and_active_filters Example.localeCompare
           Example.dataset defaultApplied).
  reflexivity.
Defined.

Lemma evaluation_repeats_witness :
  filteredAndSortedProblems Example.localeCompare
    (snd (filteredAndSortedProblems Example.localeCompare Example.dataset
            defaultApplied)) defaultApplied =
  filteredAndSortedProblems Example.localeCompare Example.dataset
    defaultApplied.
Proof.
  apply (evaluation_repeats Example.localeCompare Example.dataset
           defaultApplied defaultCompare_consistent).
Defined.



Lemma reload_pending_gives_applied_witness :
  applyFilters
    (Storage.loadPending MoreExamples.numberToString
       (Storage.saveFilters (applyFilters MoreExamples.typedBounds))) =
  Storage.loadApplied
    (Storage.saveFilters (applyFilters MoreExamples.typedBounds)).
Proof.
  apply (reload_pending_gives_applied MoreExamples.numberToString
           MoreExamples.typedBounds).
  - intros z _. unfold MoreExamples.numberToString. now rewrite Qfloor_Z.
  - intros z H. apply num_injective in H. subst. reflexivity.
  - intros z H. apply num_injective in H. subst. reflexivity.
Defined.

Lemma toggleTag_select_witness :
  (forall t,
      In t (Pending.selectedTags
              (toggleTag Example.twoTags "A" MoreExamples.onlyB)) <->
      In t (Pending.selectedTags MoreExamples.onlyB) \/ t = "A") /\
  sameMembers
    (Pending.selectedSubtags
       (toggleTag Example.twoTags "A" MoreExamples.onlyB))
    (Pending.selectedSubtags MoreExamples.onlyB).
Proof.
  apply (toggleTag_select Example.twoTags "A" MoreExamples.onlyB).
  simpl. intros [H | []]. discriminate.
Defined.

Lemma twoTags_unique (problem : LeetCodeProblem) :
  In problem Example.twoTags -> uniqueTagNames problem.
Proof.
  intros [<- | [<- | []]]; unfold uniqueTagNames; simpl;
    repeat constructor; auto.
Qed.

Lemma bothSelected_offered :
  subtagsOffered Example.twoTags Example.bothSelected.
Proof. intros subtag H. exact H. Qed.

Lemma toggleTag_keeps_subtags_offered_witness :
  In "z"
    (availableSubtags Example.twoTags
       (Pending.selectedTags
          (toggleTag Example.twoTags "A" Example.bothSelected))).
Proof.
  apply (toggleTag_keeps_subtags_offered Example.twoTags "A"
           Example.bothSelected twoTags_unique bothSelected_offered "z").
  simpl. auto.
Defined.

Lemma toggleSubtag_keeps_subtags_offered_witness :
  In "x"
    (availableSubtags Example.twoTags
       (Pending.selectedTags (toggleSubtag "y" Example.bothSelected))).
Proof.
  apply (toggleSubtag_keeps_subtags_offered Example.twoTags "y"
           Example.bothSelected (or_intror (or_introl eq_refl))
           bothSelected_offered "x").
  simpl. auto.
Defined.

Lemma removeAppliedFilter_effect_witness :
  (In "B"
     (Applied.tags
        (fst (removeAppliedFilter "tag" (Some "A") MoreExamples.appliedAB
                Example.bothSelected))) <->
   In "B" (Applied.tags MoreExamples.appliedAB) /\ "B" <> "A") /\
  (In "B"
     (Pending.selectedTags
        (snd (removeAppliedFilter "tag" (Some "A") MoreExamples.appliedAB
                Example.bothSelected))) <->
   In "B" (Pending.selectedTags Example.bothSelected) /\ "B" <> "A").
Proof.
  assert ("A" <> "") as H by discriminate.
  destruct (proj1 (removeAppliedFilter_effect MoreExamples.appliedAB
                     Example.bothSelected) "A" H) as [Ha [Hp _]].
  split; [apply Ha | apply Hp].
Defined.

Lemma showing_range_witness :
  View.showingTo (Example.numbered 120) 3 -
  View.showingFrom (Example.numbered 120) 3 + 1 =
  Z.of_nat (List.length (paginatedProblems (Example.numbered 120) 3)).
Proof.
  apply (showing_range (Example.numbered 120) 3).
  vm_compute. split; discriminate.
Defined.

Lemma session_result_witness :
  Permutation
    (problems (initialState Example.localeCompare Example.dataset))
    Example.dataset.
Proof.
  apply (session_result Example.localeCompare Example.dataset
           (initialState Example.localeCompare Example.dataset)).
  apply reachable_initial.
Defined.

Lemma clearAllFilters_shows_everything_witness :
  Permutation
    (filteredAndSorted
       (handle Example.localeCompare
          (handle Example.localeCompare
             (initialState Example.localeCompare Example.dataset)
             (ChangeSearchTerm "sum"))
          ClearAllFilters))
    Example.dataset.
Proof.
  apply (clearAllFilters_shows_everything Example.localeCompare
           Example.dataset).
  apply reachable_step; [apply reachable_initial | reflexivity].
Defined.

Lemma next_and_previous_undo_witness :
  handle Example.localeCompare
    (handle Example.localeCompare
       (initialState Example.localeCompare (Example.numbered 60)) NextPage)
    PreviousPage =
  initialState Example.localeCompare (Example.numbered 60).
Proof.
  apply (proj1 (next_and_previous_undo Example.localeCompare
                  (Example.numbered 60)
                  (initialState Example.localeCompare (Example.numbered 60))
                  (reachable_initial _ _))).
  vm_compute. reflexivity.
Defined.

End ExtraFacts.
